(** * go-gost/hosts: a static host table with live reload

    A shallow embedding of [hosts.go] and a verification of its lookup,
    reload, period and tokenizer behaviour.

    Go strings are byte strings; they are modelled by [string] (a list of
    8-bit [ascii] characters).  [time.Duration] is a signed 64-bit count of
    nanoseconds, modelled by [Z] with the wrap-around written out.  The
    reader/writer mutex of the table is not modelled: every operation is
    taken as one atomic step on the table state.

    The functions of the Go standard library that [hosts.go] calls are
    modelled after their Go definitions: the byte and white-space functions
    of [strings], [time.ParseDuration] (with IEEE 754 binary64 for its
    fractions) and the line scanner of [bufio].  [net.ParseIP] is a
    parameter of [Reload]: the theorems hold for every IP parser. *)

From Stdlib Require Import Strings.String Strings.Ascii Strings.Byte List ZArith NArith Bool Lia.
From Stdlib Require Import Floats.SpecFloat.
Import ListNotations.

Local Open Scope string_scope.
Local Open Scope list_scope.
Local Open Scope Z_scope.

(** ** Package [strings] of the Go standard library (the part [hosts.go] uses) *)

Module strings.

(** [strings.IndexByte(s, c)]: index of the first [c] in [s], or [-1]. *)
Fixpoint IndexByte (s : string) (c : ascii) : Z :=
  match s with
  | EmptyString => -1
  | String a r =>
      if Ascii.eqb a c then 0
      else let n := IndexByte r c in
           if n <? 0 then -1 else n + 1
  end.

(** The slice expression [s[:n]], for [n] within the length of [s]. *)
Definition slice_to (s : string) (n : Z) : string :=
  String.substring 0 (Z.to_nat n) s.

(** [strings.Replace(s, old, new, -1)] for one-byte [old] and [new]:
    every occurrence is replaced. *)
Fixpoint Replace (s : string) (old new : ascii) : string :=
  match s with
  | EmptyString => EmptyString
  | String a r => String (if Ascii.eqb a old then new else a) (Replace r old new)
  end.

(** [strings.Split(s, sep)] for a one-byte separator: the pieces between
    the separators, [n+1] pieces for [n] separators (so one empty piece
    for the empty string). *)
Fixpoint Split (s : string) (sep : ascii) : list string :=
  match s with
  | EmptyString => [EmptyString]
  | String a r =>
      if Ascii.eqb a sep then EmptyString :: Split r sep
      else match Split r sep with
           | [] => [String a EmptyString]
           | piece :: pieces => String a piece :: pieces
           end
  end.

(** The ASCII white space of [strings.TrimSpace]:
    ['\t'], ['\n'], ['\v'], ['\f'], ['\r'], [' ']. *)
Definition asciiSpace (c : ascii) : bool :=
  match N_of_ascii c with
  | 9 | 10 | 11 | 12 | 13 | 32 => true
  | _ => false
  end%N.

(** Two-byte UTF-8 encodings of white space: U+0085 (NEL), U+00A0 (NBSP). *)
Definition space2 (c1 c2 : ascii) : bool :=
  match N_of_ascii c1, N_of_ascii c2 with
  | 194, 133 | 194, 160 => true
  | _, _ => false
  end%N.

(** Three-byte UTF-8 encodings of white space: U+1680, U+2000..U+200A,
    U+2028, U+2029, U+202F, U+205F, U+3000. *)
Definition space3 (c1 c2 c3 : ascii) : bool :=
  let n3 := N_of_ascii c3 in
  match N_of_ascii c1, N_of_ascii c2 with
  | 225, 154 => n3 =? 128
  | 226, 128 => ((128 <=? n3) && (n3 <=? 138)) || (n3 =? 168) || (n3 =? 169) || (n3 =? 175)
  | 226, 129 => n3 =? 159
  | 227, 128 => n3 =? 128
  | _, _ => false
  end%N.

(** Leading white-space runes removed ([strings.TrimLeftFunc] with
    [unicode.IsSpace]); a byte that starts no white-space rune stops it. *)
Fixpoint TrimLeft (s : string) : string :=
  match s with
  | EmptyString => EmptyString
  | String c1 r1 =>
      if asciiSpace c1 then TrimLeft r1
      else match r1 with
           | EmptyString => s
           | String c2 r2 =>
               if space2 c1 c2 then TrimLeft r2
               else match r2 with
                    | EmptyString => s
                    | String c3 r3 => if space3 c1 c2 c3 then TrimLeft r3 else s
                    end
           end
  end.

(** Trailing white-space runes removed: the longest suffix made of
    white-space runes is dropped. *)
Fixpoint TrimRight (s : string) : string :=
  match s with
  | EmptyString => EmptyString
  | String c r =>
      if String.eqb (TrimLeft s) EmptyString then EmptyString
      else String c (TrimRight r)
  end.

(** [strings.TrimSpace(s)]. *)
Definition TrimSpace (s : string) : string := TrimRight (TrimLeft s).

End strings.

(** ** [splitLine] *)

Definition tab : ascii := "009"%char.
Definition blank : ascii := " "%char.
Definition hash : ascii := "#"%char.

(** [splitLine] splits a line text by white space. *)
Definition splitLine (line : string) : list string :=
  if String.eqb line EmptyString then []
  else
    let n := strings.IndexByte line hash in
    let line := if 0 <=? n then strings.slice_to line n else line in
    let line := strings.Replace line tab blank in
    let line := strings.TrimSpace line in
    fold_left
      (fun ss s =>
         let s := strings.TrimSpace s in
         if negb (String.eqb s EmptyString) then ss ++ [s] else ss)
      (strings.Split line blank) [].

(** ** Errors

    The [error] values that can reach [Reload]: the failures of
    [time.ParseDuration] (which [Reload] discards), the scanner's own
    [bufio.ErrTooLong], and whatever failure the caller's reader reports. *)
Inductive error : Type :=
| ErrInvalidDuration (orig : string)      (* "time: invalid duration ..." *)
| ErrMissingUnit (orig : string)          (* "time: missing unit in duration ..." *)
| ErrUnknownUnit (u orig : string)        (* "time: unknown unit ... in duration ..." *)
| ErrTooLong                              (* "bufio.Scanner: token too long" *)
| ErrRead (msg : string).                 (* a non-EOF error of the reader *)

(** ** Package [time] of the Go standard library: [ParseDuration] *)

Module time.

(** A [Duration] is an [int64] count of nanoseconds. *)
Definition Duration : Type := Z.

Definition Nanosecond : Duration := 1.
Definition Microsecond : Duration := 1000 * Nanosecond.
Definition Millisecond : Duration := 1000 * Microsecond.
Definition Second : Duration := 1000 * Millisecond.
Definition Minute : Duration := 60 * Second.
Definition Hour : Duration := 60 * Minute.

(** Conversions to the 64-bit integer types, with their wrap-around. *)
Definition uint64 (z : Z) : Z := z mod 2 ^ 64.
Definition int64 (z : Z) : Z := (z + 2 ^ 63) mod 2 ^ 64 - 2 ^ 63.

(** IEEE 754 binary64, as [float64] computes. *)
Definition float64 : Type := spec_float.
Definition float64_of_uint64 (z : Z) : float64 := binary_normalize 53 1024 z 0 false.
Definition fmul (x y : float64) : float64 := SFmul 53 1024 x y.
Definition fdiv (x y : float64) : float64 := SFdiv 53 1024 x y.

(** [uint64(x)] for a finite non-negative [x] below [2^64] (the only
    values [ParseDuration] converts): truncation. *)
Definition uint64_of_float64 (x : float64) : Z :=
  match x with
  | S754_finite false m e =>
      if 0 <=? e then Z.pos m * 2 ^ e else Z.pos m / 2 ^ (- e)
  | _ => 0
  end.

Definition isDigit (c : ascii) : bool :=
  (48 <=? N_of_ascii c)%N && (N_of_ascii c <=? 57)%N.

Definition digit (c : ascii) : Z := Z.of_N (N_of_ascii c) - 48.

(** [unitMap]; the two micro signs are U+00B5 and U+03BC in UTF-8. *)
Definition unitMap (u : string) : option Z :=
  if String.eqb u "ns" then Some Nanosecond
  else if String.eqb u "us" then Some Microsecond
  else if String.eqb u (String "194"%char (String "181"%char "s")) then Some Microsecond
  else if String.eqb u (String "206"%char (String "188"%char "s")) then Some Microsecond
  else if String.eqb u "ms" then Some Millisecond
  else if String.eqb u "s" then Some Second
  else if String.eqb u "m" then Some Minute
  else if String.eqb u "h" then Some Hour
  else None.

(** [leadingInt] consumes the leading digits of [s]; [None] is
    [errLeadingInt] (overflow).  [x] is the value read so far. *)
Fixpoint leadingInt (s : string) (x : Z) : option (Z * string) :=
  match s with
  | EmptyString => Some (x, s)
  | String c r =>
      if negb (isDigit c) then Some (x, s)
      else if x >? 2 ^ 63 / 10 then None
      else
        let x := x * 10 + digit c in
        if x >? 2 ^ 63 then None else leadingInt r x
  end.

(** [leadingFraction] consumes the leading digits of [s] as the digits
    after a decimal point: the value is [x / scale].  Digits that would
    overflow are consumed and dropped. *)
Fixpoint leadingFraction (s : string) (x : Z) (scale : float64) (overflow : bool)
  : Z * float64 * string :=
  match s with
  | EmptyString => (x, scale, s)
  | String c r =>
      if negb (isDigit c) then (x, scale, s)
      else if overflow then leadingFraction r x scale overflow
      else if x >? (2 ^ 63 - 1) / 10 then leadingFraction r x scale true
      else
        let y := x * 10 + digit c in
        if y >? 2 ^ 63 then leadingFraction r x scale true
        else leadingFraction r y (fmul scale (float64_of_uint64 10)) false
  end.

(** The unit: the bytes up to the next ['.'] or digit, and the rest. *)
Fixpoint leadingUnit (s : string) : string * string :=
  match s with
  | EmptyString => (EmptyString, EmptyString)
  | String c r =>
      if Ascii.eqb c "."%char || isDigit c then (EmptyString, s)
      else let '(u, rest) := leadingUnit r in (String c u, rest)
  end.

(** The optional fraction of a group: after a ['.'], the digits [f] with
    their [scale], the rest of [s], and whether a digit was read. *)
Definition fraction (s : string) : Z * float64 * string * bool :=
  match s with
  | EmptyString => (0, float64_of_uint64 1, s, false)
  | String c s1 =>
      if Ascii.eqb c "."%char then
        let '(f, scale, s2) := leadingFraction s1 0 (float64_of_uint64 1) false in
        (f, scale, s2, negb (Nat.eqb (String.length s1) (String.length s2)))
      else (0, float64_of_uint64 1, s, false)
  end.

(** One turn of the loop over the non-empty [s], up to the update of [d]:
    the value of one group (digits, an optional fraction, a unit) and the
    rest of [s]. *)
Definition parseGroup (orig s : string) : error + (Z * string) :=
  match s with
  | EmptyString => inl (ErrInvalidDuration orig)
  | String c _ =>
      if negb (Ascii.eqb c "."%char || isDigit c) then inl (ErrInvalidDuration orig)
      else
        let pl := String.length s in
        match leadingInt s 0 with
        | None => inl (ErrInvalidDuration orig)
        | Some (v, s) =>
            let pre := negb (Nat.eqb pl (String.length s)) in
            let '(f, scale, s, post) := fraction s in
            if negb pre && negb post then inl (ErrInvalidDuration orig)
            else
              let '(u, s) := leadingUnit s in
              if String.eqb u EmptyString then inl (ErrMissingUnit orig)
              else
                match unitMap u with
                | None => inl (ErrUnknownUnit u orig)
                | Some unit =>
                    if v >? 2 ^ 63 / unit then inl (ErrInvalidDuration orig)
                    else
                      let v := v * unit in
                      if f >? 0 then
                        let v :=
                          uint64 (v + uint64_of_float64
                                        (fmul (float64_of_uint64 f)
                                              (fdiv (float64_of_uint64 unit) scale))) in
                        if v >? 2 ^ 63 then inl (ErrInvalidDuration orig)
                        else inr (v, s)
                      else inr (v, s)
                end
        end
  end.

(** The loop over the groups of [s], with [d] the sum so far.  Every turn
    consumes at least one byte, so [fuel] never runs out when it starts at
    the length of [s] (lemma [parseGroups_fuel]); [None] is "out of fuel". *)
Fixpoint parseGroups (fuel : nat) (orig s : string) (d : Z) : option (error + Z) :=
  match s with
  | EmptyString => Some (inr d)
  | String _ _ =>
      match fuel with
      | O => None
      | S fuel =>
          match parseGroup orig s with
          | inl e => Some (inl e)
          | inr (v, s) =>
              let d := uint64 (d + v) in
              if d >? 2 ^ 63 then Some (inl (ErrInvalidDuration orig))
              else parseGroups fuel orig s d
          end
      end
  end.

(** [time.ParseDuration(s)]: the duration and the error. *)
Definition ParseDuration (s : string) : Duration * option error :=
  let orig := s in
  let '(neg, s) :=
    match s with
    | String c r =>
        if Ascii.eqb c "-"%char || Ascii.eqb c "+"%char then (Ascii.eqb c "-"%char, r)
        else (false, s)
    | EmptyString => (false, s)
    end in
  if String.eqb s "0" then (0, None)
  else if String.eqb s EmptyString then (0, Some (ErrInvalidDuration orig))
  else
    match parseGroups (String.length s) orig s 0 with
    | None => (0, Some (ErrInvalidDuration orig))
    | Some (inl e) => (0, Some e)
    | Some (inr d) =>
        if neg then (int64 (- int64 d), None)
        else if d >? 2 ^ 63 - 1 then (0, Some (ErrInvalidDuration orig))
        else (int64 d, None)
    end.

End time.

(** ** Package [io]: the reader handed to [Reload] *)

Module io.

(** A reader as [bufio.Scanner] observes it: the bytes it delivers, and
    how the stream ends once they are delivered, [None] for [io.EOF] and
    [Some e] for a failure [e].  (Readers that never end, or that break
    the [io.Reader] contract, are outside this model.) *)
Record Reader : Type := mkReader { data : string; readErr : option error }.

End io.

(** [strings.NewReader(s)]: delivers [s], then [io.EOF]. *)
Definition NewReader (s : string) : io.Reader := io.mkReader s None.

(** ** Package [bufio]: a [Scanner] with the default split function [ScanLines] *)

Module bufio.

Definition MaxScanTokenSize : Z := 64 * 1024.

Definition newline : ascii := "010"%char.
Definition carriage_return : ascii := "013"%char.

(** [dropCR] drops a terminal ['\r'] from the data. *)
Fixpoint dropCR (data : string) : string :=
  match data with
  | EmptyString => EmptyString
  | String c EmptyString => if Ascii.eqb c carriage_return then EmptyString else data
  | String c r => String c (dropCR r)
  end.

(** The raw lines of the data: the pieces between the newlines, without
    the empty piece after a final newline (or of empty data), which
    [ScanLines] does not report at the end of the input. *)
Definition rawLines (data : string) : list string :=
  let pieces := strings.Split data newline in
  if String.eqb (last pieces EmptyString) EmptyString then removelast pieces
  else pieces.

(** What the calls of [Scan] yield and what [Err] then reports.  A raw
    line that does not fit the buffer ([MaxScanTokenSize] bytes with its
    newline) stops the scan with [ErrTooLong]; otherwise the scan ends
    with the reader's own failure, if any. *)
Fixpoint scan (raw : list string) (final : option error) : list string * option error :=
  match raw with
  | [] => ([], final)
  | l :: rest =>
      if MaxScanTokenSize <=? Z.of_nat (String.length l) then ([], Some ErrTooLong)
      else let '(ts, e) := scan rest final in (dropCR l :: ts, e)
  end.

Record Scanner : Type := mkScanner { tokens : list string; Err : option error }.

(** [bufio.NewScanner(r)], run to the end of [r]. *)
Definition NewScanner (r : io.Reader) : Scanner :=
  let '(ts, e) := scan (rawLines (io.data r)) (io.readErr r) in
  mkScanner ts e.

End bufio.

(** ** Package [net]: IP addresses *)

Module net.

(** [net.IP] is a byte slice; [None] is the nil slice. *)
Definition IP : Type := option (list Byte.byte).

Definition v4InV6Prefix : list Byte.byte :=
  [x00; x00; x00; x00; x00; x00; x00; x00; x00; x00; xff; xff].

(** [net.IPv4(a, b, c, d)]: the 16-byte form. *)
Definition IPv4 (a b c d : Byte.byte) : IP := Some (v4InV6Prefix ++ [a; b; c; d]).

(** [dtoi]: a decimal number at the start of [s], the count of bytes
    read, the rest: [None] when there is no digit or the number is
    [0xFFFFFF] or more. *)
Fixpoint dtoi_loop (s : string) (n : Z) (i : nat) : option (Z * nat * string) :=
  match s with
  | EmptyString => Some (n, i, s)
  | String c r =>
      if time.isDigit c then
        let n := n * 10 + time.digit c in
        if 16777215 <=? n then None else dtoi_loop r n (S i)
      else Some (n, i, s)
  end.

Definition dtoi (s : string) : option (Z * nat * string) :=
  match dtoi_loop s 0 O with
  | Some (_, O, _) => None
  | res => res
  end.

Definition byte_of_Z (n : Z) : Byte.byte := byte_of_ascii (ascii_of_N (Z.to_N n)).

(** The loop of [parseIPv4] over the [k] fields still to read; every
    field but the first follows a dot, is at most 255 and has no
    leading zero. *)
Fixpoint parseIPv4_fields (k : nat) (first : bool) (s : string) : option (list Byte.byte) :=
  match k with
  | O => match s with EmptyString => Some [] | _ => None end
  | S k =>
      let field :=
        match s with
        | EmptyString => None
        | String c r =>
            if first then Some s
            else if Ascii.eqb c "."%char then Some r
            else None
        end in
      match field with
      | None => None
      | Some s =>
          match dtoi s with
          | None => None
          | Some (n, c, rest) =>
              if 255 <? n then None
              else if Nat.ltb 1 c && String.prefix "0" s then None
              else option_map (cons (byte_of_Z n)) (parseIPv4_fields k false rest)
          end
      end
  end.

(** [parseIPv4]: the dotted-decimal branch of [net.ParseIP].  The theorems
    on [Reload] are proved for every IP parser; this one runs the examples. *)
Definition parseIPv4 (s : string) : IP :=
  match parseIPv4_fields 4 true s with
  | Some [a; b; c; d] => IPv4 a b c d
  | _ => None
  end.

End net.

(** ** The host table *)

(** [Host] is a static mapping from hostname to IP. *)
Record Host : Type := mkHost {
  IP : net.IP;
  Hostname : string;
  Aliases : list string
}.

(** [NewHost] creates a [Host]. *)
Definition NewHost (ip : net.IP) (hostname : string) (aliases : list string) : Host :=
  {| IP := ip; Hostname := hostname; Aliases := aliases |}.

(** [staticHosts]; the channel [stopped] is a flag: closed or not. *)
Record staticHosts : Type := mkStaticHosts {
  hosts : list Host;
  period : time.Duration;
  stopped : bool
}.

(** [NewHosts] creates a table with an optional list of hosts. *)
Definition NewHosts (hs : list Host) : staticHosts :=
  {| hosts := hs; period := 0; stopped := false |}.

(** The inner loop of [Lookup] over the aliases of one record: [ip] is
    assigned the record's IP at the first alias equal to [host], and the
    [break] leaves this loop. *)
Fixpoint lookupAliases (aliases : list string) (hIP : net.IP) (host : string) (ip : net.IP)
  : net.IP :=
  match aliases with
  | [] => ip
  | alias :: rest =>
      if String.eqb alias host then hIP
      else lookupAliases rest hIP host ip
  end.

(** The outer loop of [Lookup] over the records: a record whose hostname
    is [host] assigns [ip] and the [break] leaves the loop; otherwise the
    aliases are scanned and the loop goes on with the next record. *)
Fixpoint lookupHosts (hs : list Host) (host : string) (ip : net.IP) : net.IP :=
  match hs with
  | [] => ip
  | h :: rest =>
      if String.eqb (Hostname h) host then IP h
      else lookupHosts rest host (lookupAliases (Aliases h) (IP h) host ip)
  end.

(** [Lookup] searches the IP address that corresponds to the given host.
    The receiver may be nil ([None]). *)
Definition Lookup (h : option staticHosts) (host : string) : net.IP :=
  match h with
  | None => None
  | Some t =>
      if String.eqb host EmptyString then None
      else lookupHosts (hosts t) host None
  end.

(** [Stopped] checks whether the reloader is stopped. *)
Definition Stopped (h : staticHosts) : bool := stopped h.

(** [Stop] stops reloading: closes the channel unless it is closed. *)
Definition Stop (h : staticHosts) : staticHosts :=
  if stopped h then h
  else {| hosts := hosts h; period := period h; stopped := true |}.

(** [Period] returns the reload period. *)
Definition Period (h : staticHosts) : time.Duration :=
  if Stopped h then -1 else period h.

Section Reload.

(** [net.ParseIP] of the Go standard library: the development holds for
    whatever it parses; [None] is its nil result. *)
Variable ParseIP : string -> net.IP.

(** The body of the scan loop of [Reload], on the pending [period] and
    [hosts]. *)
Definition reloadLine (st : time.Duration * list Host) (line : string)
  : time.Duration * list Host :=
  let '(period, hosts) := st in
  match splitLine line with
  | s0 :: s1 :: rest =>
      if String.eqb s0 "reload" then (fst (time.ParseDuration s1), hosts)
      else
        match ParseIP s0 with
        | None => (period, hosts)
        | Some ip =>
            (period, hosts ++ [{| IP := Some ip; Hostname := s1; Aliases := rest |}])
        end
  | _ => (period, hosts)
  end.

(** The scan loop, from the zero period and no hosts. *)
Definition reloadLines (lines : list string) : time.Duration * list Host :=
  fold_left reloadLine lines (0, []).

(** [Reload] parses config from [r], then live reloads the hosts.  It
    returns the table after the call and the error. *)
Definition Reload (h : staticHosts) (r : option io.Reader) : staticHosts * option error :=
  match r with
  | None => (h, None)
  | Some r =>
      if Stopped h then (h, None)
      else
        let scanner := bufio.NewScanner r in
        let '(period, hosts) := reloadLines (bufio.tokens scanner) in
        match bufio.Err scanner with
        | Some err => (h, Some err)
        | None => ({| hosts := hosts; period := period; stopped := stopped h |}, None)
        end
  end.

End Reload.

(** ** Histories of calls *)

(** The calls of the exposed interface. *)
Inductive call : Type :=
| CallLookup (host : string)
| CallReload (r : option io.Reader)
| CallPeriod
| CallStop
| CallStopped.

Definition isStop (c : call) : bool :=
  match c with CallStop => true | _ => false end.

(** The table after one call, and after a history of calls. *)
Definition exec (ParseIP : string -> net.IP) (h : staticHosts) (c : call) : staticHosts :=
  match c with
  | CallReload r => fst (Reload ParseIP h r)
  | CallStop => Stop h
  | CallLookup _ | CallPeriod | CallStopped => h
  end.

Definition run (ParseIP : string -> net.IP) (h : staticHosts) (calls : list call) : staticHosts :=
  fold_left (exec ParseIP) calls h.

(** ** Definitions that follow the words of the specification *)

(** [lastSome f l]: [f] at the last element of [l] where it is defined. *)
Fixpoint lastSome {A B : Type} (f : A -> option B) (l : list A) : option B :=
  match l with
  | [] => None
  | a :: rest =>
      match lastSome f rest with
      | Some b => Some b
      | None => f a
      end
  end.

(** A record matches a query by its hostname or by one of its aliases. *)
Definition matches (host : string) (r : Host) : bool :=
  String.eqb (Hostname r) host || existsb (fun alias => String.eqb alias host) (Aliases r).

(** The first record, in sequence order, that matches the query. *)
Definition firstMatch (hs : list Host) (host : string) : option Host :=
  find (matches host) hs.

(** The record whose IP the scan of [Lookup] leaves in [ip]: the loops of
    [lookupHosts], carrying the record instead of its IP. *)
Fixpoint selected (hs : list Host) (host : string) (sel : option Host) : option Host :=
  match hs with
  | [] => sel
  | h :: rest =>
      if String.eqb (Hostname h) host then Some h
      else selected rest host
             (if existsb (fun alias => String.eqb alias host) (Aliases h) then Some h else sel)
  end.

Definition ipOf (sel : option Host) : net.IP :=
  match sel with
  | Some r => IP r
  | None => None
  end.

(** A reload-period directive: a line of at least two tokens whose first
    token is the keyword; its value is what the duration parser returns for
    the second token. *)
Definition directive (line : string) : option time.Duration :=
  match splitLine line with
  | s0 :: s1 :: _ =>
      if String.eqb s0 "reload" then Some (fst (time.ParseDuration s1)) else None
  | _ => None
  end.

(** The period of a text: the value of its last directive, zero without one. *)
Definition parsedPeriod (lines : list string) : time.Duration :=
  match lastSome directive lines with
  | Some d => d
  | None => 0
  end.

(** The period a call installs: that of the text of a [Reload] whose source
    is present and scanned to its end without failure. *)
Definition installed (c : call) : option time.Duration :=
  match c with
  | CallReload (Some r) =>
      match bufio.Err (bufio.NewScanner r) with
      | None => Some (parsedPeriod (bufio.tokens (bufio.NewScanner r)))
      | Some _ => None
      end
  | _ => None
  end.

(** The most recently parsed period of a history, zero if none was. *)
Definition lastPeriod (calls : list call) : time.Duration :=
  match lastSome installed calls with
  | Some d => d
  | None => 0
  end.

(** A directive that is successfully applied: its duration parses. *)
Definition appliedDirective (line : string) : option time.Duration :=
  match splitLine line with
  | s0 :: s1 :: _ =>
      if String.eqb s0 "reload" then
        match time.ParseDuration s1 with
        | (d, None) => Some d
        | (_, Some _) => None
        end
      else None
  | _ => None
  end.

(** The lines a call scans into the table: those of a [Reload] whose
    source is present and scanned to its end without failure. *)
Definition scannedLines (c : call) : list string :=
  match c with
  | CallReload (Some r) =>
      match bufio.Err (bufio.NewScanner r) with
      | None => bufio.tokens (bufio.NewScanner r)
      | Some _ => []
      end
  | _ => []
  end.

(** The value of the last directive successfully applied in a history,
    zero if none ever was. *)
Definition lastApplied (calls : list call) : time.Duration :=
  match lastSome appliedDirective (flat_map scannedLines calls) with
  | Some d => d
  | None => 0
  end.

(** The line up to its first ['#']. *)
Fixpoint beforeHash (s : string) : string :=
  match s with
  | EmptyString => EmptyString
  | String c r => if Ascii.eqb c hash then EmptyString else String c (beforeHash r)
  end.

Definition nonEmpty (s : string) : bool := negb (String.eqb s EmptyString).

(** The tokenizer in the words of the specification: truncate at the first
    ['#'], turn tabs into blanks, trim, split at single blanks, drop the
    empty fragments. *)
Definition tokenize (line : string) : list string :=
  filter nonEmpty
    (strings.Split (strings.TrimSpace (strings.Replace (beforeHash line) tab blank)) blank).

(** The same, with every fragment trimmed before the empty ones are dropped. *)
Definition tokenizeTrimmed (line : string) : list string :=
  filter nonEmpty
    (map strings.TrimSpace
       (strings.Split (strings.TrimSpace (strings.Replace (beforeHash line) tab blank)) blank)).

(** Every byte of [s] satisfies [P]. *)
Fixpoint allBytes (P : ascii -> bool) (s : string) : bool :=
  match s with
  | EmptyString => true
  | String c r => P c && allBytes P r
  end.

(** An ASCII byte that is not white space. *)
Definition plainByte (c : ascii) : bool :=
  negb (strings.asciiSpace c) && (N_of_ascii c <? 128)%N.

(** A plain byte, a blank or a tab: the bytes of a line whose only white
    space is blanks and tabs. *)
Definition lineByte (c : ascii) : bool :=
  plainByte c || Ascii.eqb c blank || Ascii.eqb c tab.

(** ** Sample data *)

Definition nl : string := String bufio.newline EmptyString.
Definition vt : string := String "011"%char EmptyString.

Definition ip_192_168_1_1 : net.IP := net.IPv4 "192"%byte "168"%byte "001"%byte "001"%byte.
Definition ip_10_0_0_1 : net.IP := net.IPv4 "010"%byte "000"%byte "000"%byte "001"%byte.
Definition ip_10_0_0_2 : net.IP := net.IPv4 "010"%byte "000"%byte "000"%byte "002"%byte.

(** The configuration text of the specification's example. *)
Definition sampleText : string :=
  ("# comment" ++ nl ++
   "192.168.1.1   host.local   alias1  alias2" ++ nl ++
   "reload 30s" ++ nl ++
   "not-an-ip    bad" ++ nl)%string.

(** ** Definitions for the further properties *)

(** The first record whose hostname is the query. *)
Definition byHostname (host : string) (hs : list Host) : option Host :=
  find (fun r => String.eqb (Hostname r) host) hs.

(** The IP of the last record with an alias equal to the query. *)
Definition byLastAlias (host : string) (hs : list Host) : option net.IP :=
  lastSome
    (fun r => if existsb (fun alias => String.eqb alias host) (Aliases r)
              then Some (IP r) else None) hs.

(** The bytes that end a token: blank, tab and ['#']. *)
Definition isSeparator (c : ascii) : bool :=
  Ascii.eqb c blank || Ascii.eqb c tab || Ascii.eqb c hash.

(** A non-empty string without separator. *)
Definition cleanToken (s : string) : bool :=
  nonEmpty s && allBytes (fun c => negb (isSeparator c)) s.

(** A non-empty string of plain bytes other than ['#']. *)
Definition plainToken (s : string) : bool :=
  nonEmpty s && allBytes (fun c => plainByte c && negb (Ascii.eqb c hash)) s.

(** A record as a line of a configuration text gives it: an IP, a
    hostname and aliases that are clean tokens. *)
Definition wellFormed (r : Host) : bool :=
  match IP r with Some _ => true | None => false end
  && cleanToken (Hostname r) && forallb cleanToken (Aliases r).

(** [n] times the byte [c]. *)
Fixpoint bytes (n : nat) (c : ascii) : string :=
  match n with
  | O => EmptyString
  | S n => String c (bytes n c)
  end.

(** A host line of 64 KiB: an address, a blank, a long name. *)
Definition longLine : string :=
  ("10.0.0.1 " ++ bytes (Nat.pow 2 16 - 9) "a")%string.


(** The period and hosts a call loads into a table that is not stopped:
    those of a [Reload] whose source is present and scanned without
    failure. *)
Definition loaded (ParseIP : string -> net.IP) (c : call)
  : option (time.Duration * list Host) :=
  match c with
  | CallReload (Some r) =>
      match bufio.Err (bufio.NewScanner r) with
      | None => Some (reloadLines ParseIP (bufio.tokens (bufio.NewScanner r)))
      | Some _ => None
      end
  | _ => None
  end.

(** * Verification *)

#[global] Arguments time.float64_of_uint64 : simpl never.
#[global] Arguments time.fmul : simpl never.
#[global] Arguments time.fdiv : simpl never.
#[global] Arguments time.ParseDuration : simpl never.
#[global] Arguments splitLine : simpl never.
#[global] Arguments reloadLine : simpl never.
#[global] Arguments Reload : simpl never.
#[global] Arguments bufio.NewScanner : simpl never.
#[global] Arguments Z.pow : simpl never.
#[global] Arguments Z.div : simpl never.

(** ** The tokenizer *)

Lemma IndexByte_lower (s : string) (c : ascii) : -1 <= strings.IndexByte s c.
Proof.
  induction s as [|a r IH]; simpl; [lia|].
  destruct (Ascii.eqb a c); [lia|].
  destruct (strings.IndexByte r c <? 0) eqn:E; [lia|].
  apply Z.ltb_ge in E. lia.
Qed.

(** Slicing at the index of the first ['#'] keeps what is before it. *)
Lemma slice_to_IndexByte (s : string) :
  0 <= strings.IndexByte s hash ->
  strings.slice_to s (strings.IndexByte s hash) = beforeHash s.
Proof.
  unfold strings.slice_to.
  induction s as [|a r IH]; simpl; [lia|].
  destruct (Ascii.eqb a hash); [reflexivity|].
  destruct (strings.IndexByte r hash <? 0) eqn:E; [lia|].
  apply Z.ltb_ge in E. intros _.
  replace (Z.to_nat (strings.IndexByte r hash + 1))
    with (S (Z.to_nat (strings.IndexByte r hash))) by lia.
  simpl. f_equal. apply IH. exact E.
Qed.

(** Without a ['#'] the whole line is kept. *)
Lemma beforeHash_no_hash (s : string) :
  strings.IndexByte s hash < 0 -> beforeHash s = s.
Proof.
  induction s as [|a r IH]; simpl; [reflexivity|].
  destruct (Ascii.eqb a hash); [lia|].
  destruct (strings.IndexByte r hash <? 0) eqn:E.
  - intros _. f_equal. apply IH. apply Z.ltb_lt. exact E.
  - pose proof (IndexByte_lower r hash). apply Z.ltb_ge in E. lia.
Qed.

Lemma truncate_beforeHash (line : string) :
  (if 0 <=? strings.IndexByte line hash
   then strings.slice_to line (strings.IndexByte line hash)
   else line) = beforeHash line.
Proof.
  destruct (0 <=? strings.IndexByte line hash) eqn:E.
  - apply slice_to_IndexByte. apply Z.leb_le. exact E.
  - symmetry. apply beforeHash_no_hash. apply Z.leb_gt. exact E.
Qed.

(** The append loop of [splitLine] is a filter of the trimmed fragments. *)
Lemma append_loop_filter (pieces acc : list string) :
  fold_left
    (fun ss s =>
       let s := strings.TrimSpace s in
       if negb (String.eqb s EmptyString) then ss ++ [s] else ss)
    pieces acc
  = acc ++ filter nonEmpty (map strings.TrimSpace pieces).
Proof.
  revert acc.
  induction pieces as [|p ps IH]; intros acc; simpl.
  - now rewrite app_nil_r.
  - rewrite IH. unfold nonEmpty.
    destruct (negb (String.eqb (strings.TrimSpace p) EmptyString)); simpl.
    + now rewrite <- app_assoc.
    + reflexivity.
Qed.

Lemma splitLine_tokenizeTrimmed (line : string) :
  splitLine line = tokenizeTrimmed line.
Proof.
  unfold splitLine, tokenizeTrimmed.
  destruct (String.eqb line EmptyString) eqn:E.
  - apply String.eqb_eq in E. subst line. reflexivity.
  - rewrite truncate_beforeHash. apply append_loop_filter.
Qed.

(** *** Lines whose only white space is blanks and tabs *)

Lemma allBytes_app (P : ascii -> bool) (a b : string) :
  allBytes P (a ++ b)%string = allBytes P a && allBytes P b.
Proof.
  induction a as [|c r IH]; simpl; [reflexivity|].
  now rewrite IH, andb_assoc.
Qed.

Lemma allBytes_weaken (P Q : ascii -> bool) (s : string) :
  (forall c, P c = true -> Q c = true) ->
  allBytes P s = true -> allBytes Q s = true.
Proof.
  intros HPQ. induction s as [|c r IH]; simpl; [reflexivity|].
  intros H. apply andb_true_iff in H. destruct H as [Hc Hr].
  apply andb_true_iff. split; [now apply HPQ | now apply IH].
Qed.

(** [TrimLeft] keeps a suffix. *)
Lemma TrimLeft_suffix (n : nat) :
  forall s, (String.length s <= n)%nat ->
            exists p, s = (p ++ strings.TrimLeft s)%string.
Proof.
  induction n as [|n IH]; intros s Hlen.
  - destruct s; [now exists EmptyString | simpl in Hlen; lia].
  - destruct s as [|c1 r1]; [now exists EmptyString|].
    simpl in Hlen. cbn [strings.TrimLeft].
    destruct (strings.asciiSpace c1).
    { destruct (IH r1 ltac:(lia)) as [p Hp].
      exists (String c1 p). simpl. now f_equal. }
    destruct r1 as [|c2 r2]; [now exists EmptyString|].
    simpl in Hlen.
    destruct (strings.space2 c1 c2).
    { destruct (IH r2 ltac:(lia)) as [p Hp].
      exists (String c1 (String c2 p)). simpl. now do 2 f_equal. }
    destruct r2 as [|c3 r3]; [now exists EmptyString|].
    simpl in Hlen.
    destruct (strings.space3 c1 c2 c3); [|now exists EmptyString].
    destruct (IH r3 ltac:(lia)) as [p Hp].
    exists (String c1 (String c2 (String c3 p))). simpl. now do 3 f_equal.
Qed.

(** [TrimRight] keeps a prefix. *)
Lemma TrimRight_prefix (s : string) :
  exists q, s = (strings.TrimRight s ++ q)%string.
Proof.
  induction s as [|c r [q Hq]]; [now exists EmptyString|].
  cbn [strings.TrimRight].
  destruct (String.eqb (strings.TrimLeft (String c r)) EmptyString).
  - now exists (String c r).
  - exists q. simpl. now f_equal.
Qed.

Lemma TrimSpace_allBytes (P : ascii -> bool) (s : string) :
  allBytes P s = true -> allBytes P (strings.TrimSpace s) = true.
Proof.
  intros H. unfold strings.TrimSpace.
  destruct (TrimLeft_suffix (String.length s) s (Nat.le_refl _)) as [p Hp].
  destruct (TrimRight_prefix (strings.TrimLeft s)) as [q Hq].
  rewrite Hp, allBytes_app in H. apply andb_true_iff in H. destruct H as [_ H].
  rewrite Hq, allBytes_app in H. apply andb_true_iff in H. now destruct H.
Qed.

(** An ASCII byte starts no multi-byte white-space rune. *)
Lemma plainByte_starts_no_space (c1 c2 c3 : ascii) :
  plainByte c1 = true ->
  strings.asciiSpace c1 = false /\
  strings.space2 c1 c2 = false /\
  strings.space3 c1 c2 c3 = false.
Proof.
  destruct c1 as [[] [] [] [] [] [] [] []]; cbv; try discriminate; now repeat split.
Qed.

(** White space is trimmed from the ends only: a string of plain bytes
    stays as it is. *)
Lemma TrimLeft_plain (p : string) :
  allBytes plainByte p = true -> strings.TrimLeft p = p.
Proof.
  destruct p as [|c1 r1]; [reflexivity|]. simpl.
  intros H. apply andb_true_iff in H. destruct H as [Hc _].
  destruct (plainByte_starts_no_space c1 c1 c1 Hc) as [-> _].
  destruct r1 as [|c2 r2]; [reflexivity|].
  destruct (plainByte_starts_no_space c1 c2 c2 Hc) as (_ & -> & _).
  destruct r2 as [|c3 r3]; [reflexivity|].
  now destruct (plainByte_starts_no_space c1 c2 c3 Hc) as (_ & _ & ->).
Qed.

Lemma TrimSpace_plain (p : string) :
  allBytes plainByte p = true -> strings.TrimSpace p = p.
Proof.
  unfold strings.TrimSpace. intros H. rewrite (TrimLeft_plain p H).
  induction p as [|c r IH]; [reflexivity|].
  cbn [strings.TrimRight]. rewrite (TrimLeft_plain _ H). simpl.
  simpl in H. apply andb_true_iff in H. destruct H as [_ Hr].
  now rewrite (IH Hr).
Qed.

(** The fragments between the blanks of such a line are plain. *)
Lemma Split_plain (s : string) :
  allBytes (fun c => plainByte c || Ascii.eqb c blank) s = true ->
  Forall (fun p => allBytes plainByte p = true) (strings.Split s blank).
Proof.
  induction s as [|c r IH]; simpl; intros H.
  - now constructor.
  - apply andb_true_iff in H. destruct H as [Hc Hr].
    specialize (IH Hr).
    destruct (Ascii.eqb c blank) eqn:Eb.
    + now constructor.
    + rewrite orb_false_r in Hc.
      destruct (strings.Split r blank) as [|piece pieces].
      * constructor; [simpl; now rewrite Hc | constructor].
      * inversion IH; subst. constructor; [simpl|assumption].
        now apply andb_true_iff.
Qed.

Lemma Replace_tab (s : string) :
  allBytes lineByte s = true ->
  allBytes (fun c => plainByte c || Ascii.eqb c blank) (strings.Replace s tab blank) = true.
Proof.
  induction s as [|c r IH]; simpl; [reflexivity|].
  intros H. apply andb_true_iff in H. destruct H as [Hc Hr].
  rewrite (IH Hr), andb_true_r.
  unfold lineByte in Hc.
  destruct (Ascii.eqb c tab) eqn:Et; [reflexivity|].
  now rewrite orb_false_r in Hc.
Qed.

(** On a line whose only white space before a ['#'] is blanks and tabs,
    [splitLine] is the procedure without the trimming of the fragments. *)
Lemma splitLine_tokenize_plain (line : string) :
  allBytes lineByte (beforeHash line) = true ->
  splitLine line = tokenize line.
Proof.
  intros H. rewrite splitLine_tokenizeTrimmed.
  unfold tokenizeTrimmed, tokenize. f_equal.
  apply Replace_tab, (TrimSpace_allBytes _), Split_plain in H.
  induction H as [|p ps Hp _ IH]; simpl; [reflexivity|].
  now rewrite (TrimSpace_plain p Hp), IH.
Qed.

(** C8 (amended): the line tokenizer returns exactly the tokens obtained by
    truncating the line at the first '#', replacing each tab by a blank,
    trimming leading and trailing white space, splitting at single blanks,
    trimming white space from every fragment, and discarding the fragments
    that are then empty; the empty line yields no token. *)
Theorem splitLine_trims_every_fragment (line : string) :
  splitLine line = tokenizeTrimmed line /\ splitLine EmptyString = [].
Proof.
  split; [apply splitLine_tokenizeTrimmed | reflexivity].
Qed.

(** C8 (counterexample): on a line with a vertical tab between two blanks
    the fragment made of the vertical tab is trimmed to nothing and
    dropped by the code, but kept by the procedure of the claim. *)
Lemma splitLine_not_tokenize :
  splitLine ("a " ++ vt ++ " b")%string = ["a"; "b"] /\
  tokenize ("a " ++ vt ++ " b")%string = ["a"; vt; "b"] /\
  splitLine ("a " ++ vt ++ " b")%string <> tokenize ("a " ++ vt ++ " b")%string.
Proof.
  repeat split; try reflexivity.
  vm_compute. discriminate.
Qed.

(** ** Lookup *)

Lemma lookupAliases_existsb (aliases : list string) (hIP : net.IP) (host : string) (ip : net.IP) :
  lookupAliases aliases hIP host ip
  = if existsb (fun alias => String.eqb alias host) aliases then hIP else ip.
Proof.
  induction aliases as [|a rest IH]; simpl; [reflexivity|].
  destruct (String.eqb a host); simpl; [reflexivity | exact IH].
Qed.

(** The scan returns the IP of the record it selects. *)
Lemma lookupHosts_selected (hs : list Host) (host : string) (sel : option Host) :
  lookupHosts hs host (ipOf sel) = ipOf (selected hs host sel).
Proof.
  revert sel.
  induction hs as [|h rest IH]; intros sel; simpl; [reflexivity|].
  destruct (String.eqb (Hostname h) host); [reflexivity|].
  rewrite lookupAliases_existsb, <- IH.
  destruct (existsb _ (Aliases h)); reflexivity.
Qed.

(** The selected record is one of the table and matches the query. *)
Lemma selected_matches (hs : list Host) (host : string) (sel : option Host) (r : Host) :
  selected hs host sel = Some r ->
  sel = Some r \/ (In r hs /\ matches host r = true).
Proof.
  revert sel.
  induction hs as [|h rest IH]; intros sel; simpl; [auto|].
  unfold matches at 1.
  destruct (String.eqb (Hostname h) host) eqn:Eh.
  - intros [= <-]. right. split; [now left|]. unfold matches. now rewrite Eh.
  - intros H. apply IH in H.
    destruct H as [H | [Hin Hm]]; [|now right; split; [right|]].
    destruct (existsb _ (Aliases h)) eqn:Ea; [|now left].
    injection H as <-. right. split; [now left|].
    unfold matches. now rewrite Eh, Ea.
Qed.

(** Without a matching record nothing is selected. *)
Lemma selected_no_match (hs : list Host) (host : string) (sel : option Host) :
  firstMatch hs host = None -> selected hs host sel = sel.
Proof.
  unfold firstMatch.
  revert sel.
  induction hs as [|h rest IH]; intros sel; simpl; [reflexivity|].
  unfold matches at 1.
  destruct (String.eqb (Hostname h) host); simpl; [discriminate|].
  destruct (existsb _ (Aliases h)); simpl; [discriminate|].
  apply IH.
Qed.

(** What the scan computes: the IP of the first record whose hostname is
    the query and, without such a record, the IP of the last record with
    an alias equal to the query. *)
Lemma lookupHosts_first_hostname_last_alias (hs : list Host) (host : string) (ip : net.IP) :
  lookupHosts hs host ip
  = match find (fun r => String.eqb (Hostname r) host) hs with
    | Some r => IP r
    | None =>
        match lastSome
                (fun r => if existsb (fun alias => String.eqb alias host) (Aliases r)
                          then Some (IP r) else None) hs with
        | Some i => i
        | None => ip
        end
    end.
Proof.
  revert ip.
  induction hs as [|h rest IH]; intros ip; simpl; [reflexivity|].
  destruct (String.eqb (Hostname h) host); [reflexivity|].
  rewrite IH, lookupAliases_existsb.
  destruct (find _ rest); [reflexivity|].
  destruct (lastSome _ rest); [reflexivity|].
  destruct (existsb _ (Aliases h)); reflexivity.
Qed.

(** A first match by hostname is what [Lookup] returns. *)
Lemma Lookup_first_match_by_hostname (t : staticHosts) (host : string) (r : Host) :
  host <> EmptyString ->
  firstMatch (hosts t) host = Some r ->
  Hostname r = host ->
  Lookup (Some t) host = IP r.
Proof.
  intros Hne Hfm Hh. unfold Lookup.
  destruct (String.eqb host EmptyString) eqn:E;
    [apply String.eqb_eq in E; contradiction|].
  clear E Hne. unfold firstMatch in Hfm.
  generalize (@None (list Byte.byte)) as ip.
  induction (hosts t) as [|h rest IH]; intros ip; simpl in *; [discriminate|].
  unfold matches in Hfm at 1.
  destruct (String.eqb (Hostname h) host) eqn:Eh; simpl in Hfm.
  - now injection Hfm as ->.
  - destruct (existsb _ (Aliases h)) eqn:Ea; simpl in Hfm.
    + injection Hfm as ->. apply String.eqb_neq in Eh. contradiction.
    + now apply IH.
Qed.

Lemma selected_app_no_match (pre l : list Host) (host : string) (sel : option Host) :
  firstMatch pre host = None ->
  selected (pre ++ l) host sel = selected l host sel.
Proof.
  unfold firstMatch. revert sel.
  induction pre as [|h rest IH]; intros sel; simpl; [reflexivity|].
  unfold matches at 1.
  destruct (String.eqb (Hostname h) host); simpl; [discriminate|].
  destruct (existsb _ (Aliases h)); simpl; [discriminate|].
  apply IH.
Qed.

(** What holds of first-match-wins: when a single record matches the
    query, [Lookup] returns its IP. *)
Lemma Lookup_single_match (t : staticHosts) (host : string)
      (pre post : list Host) (r : Host) :
  host <> EmptyString ->
  hosts t = pre ++ r :: post ->
  firstMatch pre host = None ->
  matches host r = true ->
  firstMatch post host = None ->
  firstMatch (hosts t) host = Some r /\ Lookup (Some t) host = IP r.
Proof.
  intros Hne Hhs Hpre Hr Hpost. split.
  - rewrite Hhs. clear Hhs. unfold firstMatch in *.
    induction pre as [|h rest IH]; simpl in *; [now rewrite Hr|].
    destruct (matches host h); [discriminate | now apply IH].
  - unfold Lookup.
    destruct (String.eqb host EmptyString) eqn:E;
      [apply String.eqb_eq in E; contradiction|].
    change (@None (list Byte.byte)) with (ipOf None).
    rewrite lookupHosts_selected, Hhs, (selected_app_no_match _ _ _ _ Hpre).
    simpl. unfold matches in Hr.
    destruct (String.eqb (Hostname r) host); [reflexivity|].
    simpl in Hr. rewrite Hr. now rewrite (selected_no_match _ _ _ Hpost).
Qed.

(** C1 (the code at the failing input): the first record matches the
    query "x" by an alias, the second by its hostname; the scan goes on
    after the alias match and [Lookup] returns the IP of the second
    record, not of the first. *)
Theorem Lookup_goes_on_after_alias_match :
  let first := NewHost ip_10_0_0_1 "a" ["x"] in
  let second := NewHost ip_10_0_0_2 "x" [] in
  let t := NewHosts [first; second] in
  firstMatch (hosts t) "x" = Some first /\
  Lookup (Some t) "x" = IP second /\
  IP second <> IP first.
Proof.
  repeat split; try reflexivity.
  vm_compute. discriminate.
Qed.

(** When the record that the scan of [Lookup] selects for a query carries
    no IP, [Lookup] returns the absent value, which is also its result on
    every table without a matching record. *)
Lemma Lookup_selected_without_IP (t : staticHosts) (host : string) (r : Host) :
  selected (hosts t) host None = Some r ->
  IP r = None ->
  matches host r = true /\ In r (hosts t) /\
  Lookup (Some t) host = None /\
  forall t', firstMatch (hosts t') host = None ->
             Lookup (Some t') host = Lookup (Some t) host.
Proof.
  intros Hsel Hip.
  assert (Hl : Lookup (Some t) host = None).
  { unfold Lookup. destruct (String.eqb host EmptyString); [reflexivity|].
    change (@None (list Byte.byte)) with (ipOf None) at 1.
    rewrite lookupHosts_selected, Hsel. exact Hip. }
  destruct (selected_matches _ _ _ _ Hsel) as [H | [Hin Hm]]; [discriminate|].
  repeat split; try assumption.
  intros t' Hno. rewrite Hl. unfold Lookup.
  destruct (String.eqb host EmptyString); [reflexivity|].
  change (@None (list Byte.byte)) with (ipOf None) at 1.
  rewrite lookupHosts_selected, (selected_no_match _ _ _ Hno). reflexivity.
Qed.

(** The table of the test suite with one record without IP. *)
Example Lookup_record_without_IP :
  Lookup (Some (NewHosts [NewHost None "example.com" []])) "example.com" = None.
Proof.
  exact (proj1 (proj2 (proj2
           (Lookup_selected_without_IP
              (NewHosts [NewHost None "example.com" []]) "example.com"
              (NewHost None "example.com" []) eq_refl eq_refl)))).
Qed.

(** C10 (the code at the failing input): the first record that matches the
    query "x" (by its alias) carries no IP, so a lookup that stops at the
    first match returns the absent value, as on a table without match; the
    scan goes on after the alias match, the second record matches by its
    hostname, and [Lookup] returns the address of the second record. *)
Theorem Lookup_first_match_without_IP_overridden :
  let first := NewHost None "a" ["x"] in
  let second := NewHost ip_10_0_0_2 "x" [] in
  let t := NewHosts [first; second] in
  firstMatch (hosts t) "x" = Some first /\
  IP first = None /\
  Lookup (Some t) "x" = ip_10_0_0_2 /\
  Lookup (Some t) "x" <> None /\
  Lookup (Some (NewHosts [])) "x" = None.
Proof.
  repeat split; try reflexivity.
  vm_compute. discriminate.
Qed.

(** ** The duration parser *)

Lemma leadingInt_length (s : string) :
  forall x v s', time.leadingInt s x = Some (v, s') ->
                 (String.length s' <= String.length s)%nat.
Proof.
  induction s as [|c r IH]; cbn [time.leadingInt String.length]; intros x v s' H.
  - inversion H; subst. apply Nat.le_refl.
  - destruct (negb (time.isDigit c)).
    + inversion H; subst. apply Nat.le_refl.
    + destruct (x >? 2 ^ 63 / 10); [discriminate|].
      destruct (x * 10 + time.digit c >? 2 ^ 63); [discriminate|].
      apply IH in H. lia.
Qed.

Lemma leadingFraction_length (s : string) :
  forall x scale overflow,
    (String.length (snd (time.leadingFraction s x scale overflow)) <= String.length s)%nat.
Proof.
  induction s as [|c r IH]; cbn [time.leadingFraction String.length snd];
    intros x scale overflow; [apply Nat.le_refl|].
  destruct (negb (time.isDigit c)); [apply Nat.le_refl|].
  destruct overflow; [specialize (IH x scale true); lia|].
  destruct (x >? (2 ^ 63 - 1) / 10); [specialize (IH x scale true); lia|].
  destruct (x * 10 + time.digit c >? 2 ^ 63).
  - specialize (IH x scale true). lia.
  - match goal with |- context [time.leadingFraction r ?y ?sc false] =>
      specialize (IH y sc false) end. lia.
Qed.

Lemma fraction_length (s : string) :
  (String.length (snd (fst (time.fraction s))) <= String.length s)%nat.
Proof.
  unfold time.fraction. destruct s as [|c s1]; simpl; [apply Nat.le_refl|].
  destruct (Ascii.eqb c "."); simpl; [|apply Nat.le_refl].
  pose proof (leadingFraction_length s1 0 (time.float64_of_uint64 1) false) as H.
  destruct (time.leadingFraction s1 0 (time.float64_of_uint64 1) false) as [[f sc] s2].
  simpl in *. lia.
Qed.

Lemma leadingUnit_length (s : string) :
  (String.length (fst (time.leadingUnit s)) + String.length (snd (time.leadingUnit s))
   = String.length s)%nat.
Proof.
  induction s as [|c r IH]; simpl; [reflexivity|].
  destruct (Ascii.eqb c "." || time.isDigit c); simpl; [reflexivity|].
  destruct (time.leadingUnit r) as [u rest]. simpl in *. lia.
Qed.

(** Every group consumes at least one byte. *)
Lemma parseGroup_shorter (orig s : string) (v : Z) (s' : string) :
  time.parseGroup orig s = inr (v, s') ->
  (String.length s' < String.length s)%nat.
Proof.
  unfold time.parseGroup.
  destruct s as [|c r]; [discriminate|].
  destruct (negb (Ascii.eqb c "." || time.isDigit c)); [discriminate|].
  destruct (time.leadingInt (String c r) 0) as [[v0 s1]|] eqn:E1; [|discriminate].
  apply leadingInt_length in E1.
  pose proof (fraction_length s1) as E2.
  destruct (time.fraction s1) as [[[f scale] s2] post]. simpl in E2.
  destruct (negb _ && negb post); [discriminate|].
  pose proof (leadingUnit_length s2) as E3.
  destruct (time.leadingUnit s2) as [u s3]. simpl in E3.
  destruct (String.eqb u EmptyString) eqn:Eu; [discriminate|].
  assert (0 < String.length u)%nat.
  { destruct u; [discriminate | simpl; lia]. }
  destruct (time.unitMap u) as [unit|]; [|discriminate].
  destruct (v0 >? 2 ^ 63 / unit); [discriminate|].
  destruct (f >? 0).
  - match goal with |- context [if ?b then inl _ else _] => destruct b end;
      [discriminate|].
    intros H1; inversion H1; subst. lia.
  - intros H1; inversion H1; subst. lia.
Qed.

(** The fuel [ParseDuration] gives to the loop is enough. *)
Lemma parseGroups_fuel (fuel : nat) :
  forall orig s d,
    (String.length s <= fuel)%nat -> time.parseGroups fuel orig s d <> None.
Proof.
  induction fuel as [|fuel IH]; intros orig s d Hlen; destruct s as [|c r];
    cbn [time.parseGroups]; try discriminate.
  - simpl in Hlen. lia.
  - destruct (time.parseGroup orig (String c r)) as [e|[v s']] eqn:E; [discriminate|].
    apply parseGroup_shorter in E.
    destruct (time.uint64 (d + v) >? 2 ^ 63); [discriminate|].
    apply IH. simpl in *. lia.
Qed.

(** On every failure [ParseDuration] returns the zero duration. *)
Lemma ParseDuration_failure_zero (s : string) :
  snd (time.ParseDuration s) <> None -> fst (time.ParseDuration s) = 0.
Proof.
  unfold time.ParseDuration.
  repeat match goal with
         | |- context [let '(_, _) := ?x in _] => destruct x
         | |- context [match ?x with _ => _ end] => destruct x
         end; simpl; congruence.
Qed.

(** ** Reload *)

Section ReloadProofs.

Variable ParseIP : string -> net.IP.

(** The pending period after a line: the value of the line when it is a
    directive, the period before it otherwise. *)
Lemma reloadLine_period (st : time.Duration * list Host) (line : string) :
  fst (reloadLine ParseIP st line)
  = match directive line with Some d => d | None => fst st end.
Proof.
  unfold reloadLine, directive. destruct st as [p hs].
  destruct (splitLine line) as [|s0 [|s1 rest]]; try reflexivity.
  destruct (String.eqb s0 "reload"); [reflexivity|].
  destruct (ParseIP s0); reflexivity.
Qed.

(** The pending hosts after a line: the hosts before it, then the record
    of the line, if it has one. *)
Lemma reloadLine_hosts (st : time.Duration * list Host) (line : string) :
  snd (reloadLine ParseIP st line) = snd st ++ snd (reloadLine ParseIP (0, []) line).
Proof.
  unfold reloadLine. destruct st as [p hs]. simpl.
  destruct (splitLine line) as [|s0 [|s1 rest]]; simpl;
    try (now rewrite app_nil_r).
  destruct (String.eqb s0 "reload"); simpl; [now rewrite app_nil_r|].
  destruct (ParseIP s0); simpl; [reflexivity | now rewrite app_nil_r].
Qed.

Lemma fold_reloadLine (lines : list string) :
  forall st,
    fold_left (reloadLine ParseIP) lines st
    = (match lastSome directive lines with Some d => d | None => fst st end,
       snd st ++ snd (reloadLines ParseIP lines)).
Proof.
  unfold reloadLines.
  induction lines as [|l rest IH]; intros st; simpl.
  - rewrite app_nil_r. now destruct st.
  - rewrite (IH (reloadLine ParseIP st l)), (IH (reloadLine ParseIP (0, []) l)).
    f_equal.
    + destruct (lastSome directive rest); [reflexivity|].
      apply reloadLine_period.
    + rewrite (reloadLine_hosts st l). simpl. now rewrite app_assoc.
Qed.

(** The period of the scan loop is the value of the last directive. *)
Lemma reloadLines_period (lines : list string) :
  fst (reloadLines ParseIP lines) = parsedPeriod lines.
Proof.
  unfold reloadLines, parsedPeriod.
  now rewrite fold_reloadLine.
Qed.

Lemma reloadLines_app (l1 l2 : list string) :
  reloadLines ParseIP (l1 ++ l2)
  = (match lastSome directive l2 with
     | Some d => d
     | None => fst (reloadLines ParseIP l1)
     end,
     snd (reloadLines ParseIP l1) ++ snd (reloadLines ParseIP l2)).
Proof.
  unfold reloadLines at 1.
  rewrite fold_left_app. fold (reloadLines ParseIP l1).
  apply fold_reloadLine.
Qed.

(** A line whose first token is neither the keyword nor an IP address
    leaves the pending period and hosts as they are. *)
Lemma reloadLine_skip (st : time.Duration * list Host) (line s0 : string) (rest : list string) :
  splitLine line = s0 :: rest ->
  s0 <> "reload" ->
  ParseIP s0 = None ->
  reloadLine ParseIP st line = st.
Proof.
  intros Hs Hk Hip. unfold reloadLine. destruct st as [p hs].
  rewrite Hs. destruct rest as [|s1 rest]; [reflexivity|].
  apply String.eqb_neq in Hk. now rewrite Hk, Hip.
Qed.

(** A directive whose duration does not parse sets the pending period to
    zero and adds no host. *)
Lemma reloadLine_bad_duration (st : time.Duration * list Host) (line tok : string)
      (more : list string) :
  splitLine line = "reload" :: tok :: more ->
  snd (time.ParseDuration tok) <> None ->
  reloadLine ParseIP st line = (0, snd st).
Proof.
  intros Hs Hd. unfold reloadLine. destruct st as [p hs].
  rewrite Hs. simpl. now rewrite (ParseDuration_failure_zero tok Hd).
Qed.

(** A line that starts with the keyword adds no host. *)
Lemma reloadLine_keyword_hosts (st : time.Duration * list Host) (line : string)
      (rest : list string) :
  splitLine line = "reload" :: rest ->
  snd (reloadLine ParseIP st line) = snd st.
Proof.
  intros Hs. unfold reloadLine. destruct st as [p hs].
  rewrite Hs. now destruct rest.
Qed.

(** What [Reload] does once the guard is passed: the error of the scan,
    or the table built from the lines. *)
Lemma Reload_scan (h : staticHosts) (r : io.Reader) :
  Stopped h = false ->
  Reload ParseIP h (Some r)
  = match bufio.Err (bufio.NewScanner r) with
    | Some err => (h, Some err)
    | None =>
        ({| hosts := snd (reloadLines ParseIP (bufio.tokens (bufio.NewScanner r)));
            period := fst (reloadLines ParseIP (bufio.tokens (bufio.NewScanner r)));
            stopped := false |}, None)
    end.
Proof.
  intros Hst. unfold Reload. rewrite Hst.
  destruct (reloadLines ParseIP (bufio.tokens (bufio.NewScanner r))) as [p hs].
  unfold Stopped in Hst. rewrite Hst. reflexivity.
Qed.

(** [Reload] keeps the flag. *)
Lemma Reload_stopped (h : staticHosts) (r : option io.Reader) :
  Stopped (fst (Reload ParseIP h r)) = Stopped h.
Proof.
  destruct r as [r|]; [|reflexivity].
  unfold Reload.
  destruct (Stopped h) eqn:Hst; [exact Hst|].
  destruct (reloadLines ParseIP _) as [p hs].
  destruct (bufio.Err _); [exact Hst | exact Hst].
Qed.

(** A stopped table is a fixed point of every call. *)
Lemma exec_stopped (h : staticHosts) (c : call) :
  Stopped h = true -> exec ParseIP h c = h.
Proof.
  intros Hst. destruct c as [host|[r|]| | |]; simpl; try reflexivity.
  - unfold Reload. now rewrite Hst.
  - unfold Stop. unfold Stopped in Hst. now rewrite Hst.
Qed.

Lemma run_stopped (calls : list call) (h : staticHosts) :
  Stopped h = true -> run ParseIP h calls = h.
Proof.
  unfold run. induction calls as [|c rest IH]; intros Hst; simpl; [reflexivity|].
  rewrite (exec_stopped h c Hst). now apply IH.
Qed.

Lemma Stop_stopped (h : staticHosts) : Stopped (Stop h) = true.
Proof.
  unfold Stop, Stopped. destruct (stopped h) eqn:E; [exact E | reflexivity].
Qed.

(** The period a call leaves in a table that is not stopped. *)
Lemma exec_period (h : staticHosts) (c : call) :
  Stopped h = false ->
  isStop c = false ->
  Stopped (exec ParseIP h c) = false /\
  period (exec ParseIP h c)
  = match installed c with Some d => d | None => period h end.
Proof.
  intros Hst Hc. destruct c as [host|[r|]| | |]; simpl; try discriminate; auto.
  rewrite (Reload_scan h r Hst).
  destruct (bufio.Err (bufio.NewScanner r)); simpl; [auto|].
  split; [reflexivity | apply reloadLines_period].
Qed.

(** The period of a table after a history without [Stop]. *)
Lemma run_period (calls : list call) :
  forall h,
    Stopped h = false ->
    existsb isStop calls = false ->
    Stopped (run ParseIP h calls) = false /\
    period (run ParseIP h calls)
    = match lastSome installed calls with Some d => d | None => period h end.
Proof.
  unfold run.
  induction calls as [|c rest IH]; intros h Hst Hno; simpl in *; [auto|].
  apply orb_false_iff in Hno. destruct Hno as [Hc Hrest].
  destruct (exec_period h c Hst Hc) as [Hst' Hp].
  destruct (IH _ Hst' Hrest) as [Hst'' Hp'].
  split; [exact Hst''|]. rewrite Hp'.
  destruct (lastSome installed rest); [reflexivity | exact Hp].
Qed.

(** After a [Stop] somewhere in the history the table is stopped. *)
Lemma run_with_Stop (calls : list call) :
  forall h, existsb isStop calls = true -> Stopped (run ParseIP h calls) = true.
Proof.
  unfold run.
  induction calls as [|c rest IH]; intros h Hex; simpl in *; [discriminate|].
  destruct (isStop c) eqn:Hc; simpl in Hex.
  - destruct c; try discriminate. simpl.
    change (fold_left (exec ParseIP) rest (Stop h)) with (run ParseIP (Stop h) rest).
    rewrite (run_stopped rest (Stop h) (Stop_stopped h)). apply Stop_stopped.
  - now apply IH.
Qed.

End ReloadProofs.

Lemma directive_keyword (line tok : string) (more : list string) :
  splitLine line = "reload" :: tok :: more ->
  directive line = Some (fst (time.ParseDuration tok)).
Proof.
  intros Hs. unfold directive. now rewrite Hs.
Qed.

(** A present source without content: the scan yields no line and no
    error, and [Reload] installs the empty sequence and the zero period. *)
Lemma Reload_empty_source (ParseIP : string -> net.IP) (h : staticHosts) (r : io.Reader) :
  Stopped h = false ->
  io.data r = EmptyString ->
  io.readErr r = None ->
  Reload ParseIP h (Some r) = ({| hosts := []; period := 0; stopped := false |}, None).
Proof.
  intros Hst Hd He. rewrite (Reload_scan ParseIP h r Hst).
  unfold bufio.NewScanner. rewrite Hd, He. reflexivity.
Qed.

(** C2 (amended): a line whose first token is the keyword 'reload' never
    contributes a host record and never makes [Reload] fail, whether its
    duration parses or not; when its second token fails to parse as a
    duration the failure is not surfaced and the pending period is set to
    zero (whatever was parsed before is lost). *)
Theorem Reload_unparsable_duration_zeroes_period
        (ParseIP : string -> net.IP) (h : staticHosts) (r : io.Reader)
        (pre post : list string) (line : string) (rest : list string) :
  Stopped h = false ->
  bufio.tokens (bufio.NewScanner r) = pre ++ line :: post ->
  bufio.Err (bufio.NewScanner r) = None ->
  splitLine line = "reload" :: rest ->
  snd (Reload ParseIP h (Some r)) = None /\
  snd (reloadLines ParseIP (pre ++ [line])) = snd (reloadLines ParseIP pre) /\
  hosts (fst (Reload ParseIP h (Some r)))
  = snd (reloadLines ParseIP pre) ++ snd (reloadLines ParseIP post) /\
  (forall tok more,
      rest = tok :: more ->
      snd (time.ParseDuration tok) <> None ->
      fst (reloadLines ParseIP (pre ++ [line])) = 0 /\
      period (fst (Reload ParseIP h (Some r)))
      = match lastSome directive post with Some d => d | None => 0 end).
Proof.
  intros Hst Htok Herr Hs.
  assert (Hline : snd (reloadLines ParseIP [line]) = []).
  { unfold reloadLines. cbn [fold_left].
    exact (reloadLine_keyword_hosts ParseIP (0, []) line rest Hs). }
  assert (Hall : reloadLines ParseIP (pre ++ line :: post)
                 = (match lastSome directive post with
                    | Some d => d
                    | None => fst (reloadLines ParseIP (pre ++ [line]))
                    end,
                    snd (reloadLines ParseIP pre) ++ snd (reloadLines ParseIP post))).
  { change (pre ++ line :: post) with (pre ++ [line] ++ post).
    rewrite app_assoc, (reloadLines_app ParseIP (pre ++ [line]) post).
    rewrite (reloadLines_app ParseIP pre [line]). cbn [snd].
    now rewrite Hline, app_nil_r. }
  rewrite (Reload_scan ParseIP h r Hst), Herr, Htok, Hall. cbn [fst snd hosts period].
  split; [reflexivity|]. split.
  { rewrite reloadLines_app. cbn [snd]. now rewrite Hline, app_nil_r. }
  split; [reflexivity|].
  intros tok more -> Hd.
  assert (Hzero : fst (reloadLines ParseIP (pre ++ [line])) = 0).
  { rewrite reloadLines_app. cbn [fst lastSome].
    rewrite (directive_keyword line tok more Hs).
    exact (ParseDuration_failure_zero tok Hd). }
  split; [exact Hzero|]. now rewrite Hzero.
Qed.

(** C2 (witness): the text "reload 30s", "reload bogus", "10.0.0.1 a". *)
Lemma Reload_unparsable_duration_zeroes_period_witness :
  let r := NewReader ("reload 30s" ++ nl ++ "reload bogus" ++ nl ++ "10.0.0.1 a")%string in
  Stopped (NewHosts []) = false /\
  bufio.tokens (bufio.NewScanner r) = ["reload 30s"] ++ "reload bogus" :: ["10.0.0.1 a"] /\
  bufio.Err (bufio.NewScanner r) = None /\
  splitLine "reload bogus" = ["reload"; "bogus"] /\
  snd (time.ParseDuration "bogus") <> None /\
  snd (Reload net.parseIPv4 (NewHosts []) (Some r)) = None /\
  hosts (fst (Reload net.parseIPv4 (NewHosts []) (Some r))) = [NewHost ip_10_0_0_1 "a" []] /\
  period (fst (Reload net.parseIPv4 (NewHosts []) (Some r))) = 0.
Proof.
  do 5 (split; [reflexivity || (vm_compute; discriminate)|]).
  pose (T := Reload_unparsable_duration_zeroes_period
               net.parseIPv4 (NewHosts [])
               (NewReader ("reload 30s" ++ nl ++ "reload bogus" ++ nl ++ "10.0.0.1 a")%string)
               ["reload 30s"] ["10.0.0.1 a"] "reload bogus" ["bogus"]
               eq_refl eq_refl eq_refl eq_refl).
  split; [exact (proj1 T)|]. split; [exact (proj1 (proj2 (proj2 T)))|].
  exact (proj2 (proj2 (proj2 (proj2 T)) "bogus" [] eq_refl
                  ltac:(vm_compute; discriminate))).
Defined.

(** C2 (counterexample): after "reload 30s" the pending period is thirty
    seconds; the directive "reload bogus", whose duration does not parse,
    does not leave it there but sets it back to zero. *)
Lemma unparsable_duration_loses_period :
  splitLine "reload bogus" = ["reload"; "bogus"] /\
  snd (time.ParseDuration "bogus") <> None /\
  fst (reloadLines net.parseIPv4 ["reload 30s"]) = 30 * time.Second /\
  fst (reloadLines net.parseIPv4 ["reload 30s"; "reload bogus"]) = 0 /\
  fst (reloadLines net.parseIPv4 ["reload 30s"; "reload bogus"])
  <> fst (reloadLines net.parseIPv4 ["reload 30s"]).
Proof.
  repeat split; try reflexivity; vm_compute; discriminate.
Qed.

(** C3 (amended): [Reload] is a no-op that succeeds, leaving the host
    sequence and the period unchanged, whenever no source is supplied (the
    reader is nil) or the table has already been stopped. *)
Theorem Reload_nil_or_stopped_noop
        (ParseIP : string -> net.IP) (h : staticHosts) (r : option io.Reader) :
  r = None \/ Stopped h = true ->
  Reload ParseIP h r = (h, None).
Proof.
  unfold Reload. intros [-> | Hst]; [reflexivity|].
  rewrite Hst. now destruct r.
Qed.

(** C3 (witness): a stopped table and the sample text. *)
Lemma Reload_nil_or_stopped_noop_witness :
  let h := Stop (NewHosts [NewHost ip_192_168_1_1 "example.com" []]) in
  (Some (NewReader sampleText) = None \/ Stopped h = true) /\
  Reload net.parseIPv4 h (Some (NewReader sampleText)) = (h, None).
Proof.
  split; [right; reflexivity|].
  apply (Reload_nil_or_stopped_noop net.parseIPv4
           (Stop (NewHosts [NewHost ip_192_168_1_1 "example.com" []]))
           (Some (NewReader sampleText))).
  right; reflexivity.
Defined.

(** C3 (counterexample): a present source without content is not a no-op.
    On the table loaded from the sample text, [Reload] of the empty text
    succeeds and replaces the host sequence by the empty one and the
    period by zero. *)
Lemma Reload_empty_source_replaces_table :
  let h := fst (Reload net.parseIPv4 (NewHosts []) (Some (NewReader sampleText))) in
  let res := Reload net.parseIPv4 h (Some (NewReader EmptyString)) in
  io.data (NewReader EmptyString) = EmptyString /\
  Stopped h = false /\
  hosts h = [NewHost ip_192_168_1_1 "host.local" ["alias1"; "alias2"]] /\
  period h = 30 * time.Second /\
  snd res = None /\
  hosts (fst res) = [] /\
  period (fst res) = 0 /\
  fst res <> h.
Proof.
  repeat split; try reflexivity.
  vm_compute. discriminate.
Qed.

(** The scan ends with the failure of the reader or with [ErrTooLong]. *)
Lemma scan_final (raw : list string) (final : option error) :
  snd (bufio.scan raw final) = final \/ snd (bufio.scan raw final) = Some ErrTooLong.
Proof.
  induction raw as [|l rest IH]; simpl; [now left|].
  destruct (bufio.MaxScanTokenSize <=? Z.of_nat (String.length l)); [now right|].
  destruct (bufio.scan rest final) as [ts e]. exact IH.
Qed.

(** A reader that fails makes the scan fail. *)
Lemma NewScanner_reader_failure (r : io.Reader) (e : error) :
  io.readErr r = Some e ->
  bufio.Err (bufio.NewScanner r) = Some e \/
  bufio.Err (bufio.NewScanner r) = Some ErrTooLong.
Proof.
  intros He. unfold bufio.NewScanner.
  pose proof (scan_final (bufio.rawLines (io.data r)) (io.readErr r)) as H.
  destruct (bufio.scan (bufio.rawLines (io.data r)) (io.readErr r)) as [ts e'].
  simpl in *. now rewrite He in H.
Qed.

(** C4: when the scan of the source fails, [Reload] returns the error of
    the scan and the table is unmodified: host sequence and period stay. *)
Theorem Reload_scan_failure_keeps_table
        (ParseIP : string -> net.IP) (h : staticHosts) (r : io.Reader) (e : error) :
  Stopped h = false ->
  bufio.Err (bufio.NewScanner r) = Some e ->
  Reload ParseIP h (Some r) = (h, Some e).
Proof.
  intros Hst He. now rewrite (Reload_scan ParseIP h r Hst), He.
Qed.

(** C4 (witness): a reader that delivers the sample text and then fails. *)
Lemma Reload_scan_failure_keeps_table_witness :
  let h := NewHosts [NewHost ip_10_0_0_1 "a" []] in
  let r := io.mkReader sampleText (Some (ErrRead "connection reset")) in
  Stopped h = false /\
  bufio.Err (bufio.NewScanner r) = Some (ErrRead "connection reset") /\
  Reload net.parseIPv4 h (Some r) = (h, Some (ErrRead "connection reset")).
Proof.
  split; [reflexivity|]. split; [reflexivity|].
  apply (Reload_scan_failure_keeps_table net.parseIPv4
           (NewHosts [NewHost ip_10_0_0_1 "a" []])
           (io.mkReader sampleText (Some (ErrRead "connection reset")))
           (ErrRead "connection reset")); reflexivity.
Defined.

(** C5: a line whose first token is not the keyword 'reload' and does not
    parse as an IP address is skipped and no error is surfaced: [Reload]
    succeeds with the table of the text without that line, in which the
    records of the lines after it follow those of the lines before it. *)
Theorem Reload_skips_line_without_IP
        (ParseIP : string -> net.IP) (h : staticHosts) (r : io.Reader)
        (pre post : list string) (bad s0 : string) (rest : list string) :
  Stopped h = false ->
  bufio.tokens (bufio.NewScanner r) = pre ++ bad :: post ->
  bufio.Err (bufio.NewScanner r) = None ->
  splitLine bad = s0 :: rest ->
  s0 <> "reload" ->
  ParseIP s0 = None ->
  Reload ParseIP h (Some r)
  = ({| hosts := snd (reloadLines ParseIP (pre ++ post));
        period := fst (reloadLines ParseIP (pre ++ post));
        stopped := false |}, None) /\
  snd (reloadLines ParseIP (pre ++ post))
  = snd (reloadLines ParseIP pre) ++ snd (reloadLines ParseIP post).
Proof.
  intros Hst Htok Herr Hs Hk Hip. split.
  - rewrite (Reload_scan ParseIP h r Hst), Herr, Htok.
    assert (Heq : reloadLines ParseIP (pre ++ bad :: post)
                  = reloadLines ParseIP (pre ++ post)).
    { unfold reloadLines. rewrite !fold_left_app. simpl.
      now rewrite (reloadLine_skip ParseIP _ bad s0 rest Hs Hk Hip). }
    now rewrite Heq.
  - now rewrite reloadLines_app.
Qed.

(** C5 (witness): the sample text, whose last line starts with "not-an-ip". *)
Lemma Reload_skips_line_without_IP_witness :
  let pre := ["# comment"; "192.168.1.1   host.local   alias1  alias2"; "reload 30s"] in
  let bad := "not-an-ip    bad" in
  let post := ["10.0.0.2 b"] in
  let r := NewReader (sampleText ++ "10.0.0.2 b")%string in
  Stopped (NewHosts []) = false /\
  bufio.tokens (bufio.NewScanner r) = pre ++ bad :: post /\
  bufio.Err (bufio.NewScanner r) = None /\
  splitLine bad = ["not-an-ip"; "bad"] /\
  "not-an-ip" <> "reload" /\
  net.parseIPv4 "not-an-ip" = None /\
  Reload net.parseIPv4 (NewHosts []) (Some r)
  = ({| hosts := [NewHost ip_192_168_1_1 "host.local" ["alias1"; "alias2"];
                  NewHost ip_10_0_0_2 "b" []];
        period := 30 * time.Second;
        stopped := false |}, None).
Proof.
  repeat (split; [reflexivity || discriminate|]).
  exact (proj1 (Reload_skips_line_without_IP
                  net.parseIPv4 (NewHosts [])
                  (NewReader (sampleText ++ "10.0.0.2 b")%string)
                  ["# comment"; "192.168.1.1   host.local   alias1  alias2"; "reload 30s"]
                  ["10.0.0.2 b"] "not-an-ip    bad" "not-an-ip" ["bad"]
                  eq_refl eq_refl eq_refl eq_refl
                  ltac:(discriminate) eq_refl)).
Defined.

(** C6: once [Stop] has been called, whatever the table held and whatever
    calls follow, [Period] returns -1 and every [Reload] returns success
    and leaves the host sequence and the period as they were. *)
Theorem after_Stop_Period_and_Reload
        (ParseIP : string -> net.IP) (h : staticHosts) (calls : list call)
        (r : option io.Reader) :
  let h' := run ParseIP (Stop h) calls in
  Period h' = -1 /\
  Reload ParseIP h' r = (h', None) /\
  hosts h' = hosts h /\
  period h' = period h.
Proof.
  intros h'. subst h'.
  rewrite (run_stopped ParseIP calls (Stop h) (Stop_stopped h)).
  repeat split.
  - unfold Period. now rewrite Stop_stopped.
  - unfold Reload. rewrite Stop_stopped. now destruct r.
  - unfold Stop. now destruct (stopped h).
  - unfold Stop. now destruct (stopped h).
Qed.

(** [lastSome] finds only values that [f] takes on the list. *)
Lemma lastSome_In {A B : Type} (f : A -> option B) (l : list A) (b : B) :
  lastSome f l = Some b -> exists a, In a l /\ f a = Some b.
Proof.
  induction l as [|a rest IH]; simpl; [discriminate|].
  destruct (lastSome f rest) as [b'|].
  - intros [= ->]. destruct (IH eq_refl) as [a' [Hin Hf]].
    exists a'. split; [now right | exact Hf].
  - intros Hf. exists a. split; [now left | exact Hf].
Qed.

(** A directive that is not successfully applied has the value zero. *)
Lemma directive_not_applied (line : string) (d : time.Duration) :
  appliedDirective line = None -> directive line = Some d -> d = 0.
Proof.
  unfold appliedDirective, directive.
  destruct (splitLine line) as [|s0 [|s1 rest]]; try discriminate.
  destruct (String.eqb s0 "reload"); [|discriminate].
  pose proof (ParseDuration_failure_zero s1) as Hz.
  destruct (time.ParseDuration s1) as [v [e|]]; [|discriminate].
  intros _ [= <-]. apply Hz. discriminate.
Qed.

Lemma parsedPeriod_none_applied (lines : list string) :
  (forall l, In l lines -> appliedDirective l = None) ->
  parsedPeriod lines = 0.
Proof.
  intros Hall. unfold parsedPeriod.
  destruct (lastSome directive lines) as [d|] eqn:E; [|reflexivity].
  destruct (lastSome_In _ _ _ E) as [l [Hin Hd]].
  exact (directive_not_applied l d (Hall l Hin) Hd).
Qed.

Lemma lastPeriod_none_applied (calls : list call) :
  lastSome appliedDirective (flat_map scannedLines calls) = None ->
  lastPeriod calls = 0.
Proof.
  intros Hnone. unfold lastPeriod.
  destruct (lastSome installed calls) as [d|] eqn:E; [|reflexivity].
  destruct (lastSome_In _ _ _ E) as [c [Hin Hd]].
  destruct c as [host|[r|]| | |]; try discriminate.
  simpl in Hd.
  destruct (bufio.Err (bufio.NewScanner r)) eqn:Herr; [discriminate|].
  injection Hd as <-. apply parsedPeriod_none_applied.
  intros l Hl.
  destruct (appliedDirective l) as [d|] eqn:Ea; [|reflexivity].
  exfalso.
  assert (Hin' : In l (flat_map scannedLines calls)).
  { apply in_flat_map. exists (CallReload (Some r)). split; [exact Hin|].
    simpl. now rewrite Herr. }
  clear - Hnone Hin' Ea.
  induction (flat_map scannedLines calls) as [|x xs IH]; [contradiction|].
  simpl in Hnone.
  destruct (lastSome appliedDirective xs) eqn:Exs; [discriminate|].
  destruct Hin' as [-> | Hin']; [congruence | now apply IH].
Qed.

(** C7 (amended): [Period] returns -1 when the table is stopped and the
    stored period otherwise; on a table made by [NewHosts] and used through
    any history of calls the stored period is the one parsed by the most
    recent [Reload] that replaced the table (the value the duration parser
    returned for the last directive of its text, zero for a text without
    directive), and it is zero if no directive was ever successfully
    applied, as on the fresh table. *)
Theorem Period_of_most_recent_Reload (ParseIP : string -> net.IP) :
  (forall h, Period h = if Stopped h then -1 else period h) /\
  (forall hs calls,
      Period (run ParseIP (NewHosts hs) calls)
      = if existsb isStop calls then -1 else lastPeriod calls) /\
  (forall hs calls,
      existsb isStop calls = false ->
      lastSome appliedDirective (flat_map scannedLines calls) = None ->
      Period (run ParseIP (NewHosts hs) calls) = 0) /\
  (forall hs, Period (NewHosts hs) = 0).
Proof.
  assert (Hrun : forall hs calls,
             Period (run ParseIP (NewHosts hs) calls)
             = if existsb isStop calls then -1 else lastPeriod calls).
  { intros hs calls. unfold Period, lastPeriod.
    destruct (existsb isStop calls) eqn:Hex.
    - now rewrite (run_with_Stop ParseIP calls (NewHosts hs) Hex).
    - destruct (run_period ParseIP calls (NewHosts hs) eq_refl Hex) as [Hst Hp].
      now rewrite Hst, Hp. }
  split; [reflexivity|]. split; [exact Hrun|]. split; [|reflexivity].
  intros hs calls Hno Hnone.
  rewrite Hrun, Hno. now apply lastPeriod_none_applied.
Qed.

(** C7 (witness): a history of two reloads, one without directive and one
    whose directive does not parse. *)
Lemma Period_of_most_recent_Reload_witness :
  let calls := [CallReload (Some (NewReader "10.0.0.1 a"));
                CallLookup "a";
                CallReload (Some (NewReader "reload bogus"))] in
  existsb isStop calls = false /\
  lastSome appliedDirective (flat_map scannedLines calls) = None /\
  Period (run net.parseIPv4 (NewHosts []) calls) = 0.
Proof.
  split; [reflexivity|]. split; [reflexivity|].
  exact (proj1 (proj2 (proj2 (Period_of_most_recent_Reload net.parseIPv4)))
           []
           [CallReload (Some (NewReader "10.0.0.1 a"));
            CallLookup "a";
            CallReload (Some (NewReader "reload bogus"))]
           eq_refl eq_refl).
Defined.

(** C7 (counterexample): [Period] is not the value of the directive most
    recently applied.  After a reload with "reload 5m" and a reload of a
    text without directive, and after a reload of "reload 30s" followed by
    a directive that does not parse, it is zero. *)
Lemma Period_not_last_applied :
  let r1 := CallReload (Some (NewReader "reload 5m")) in
  let r2 := CallReload (Some (NewReader "10.0.0.1 a")) in
  let r3 := CallReload (Some (NewReader ("reload 30s" ++ nl ++ "reload bogus")%string)) in
  Stopped (run net.parseIPv4 (NewHosts []) [r1; r2]) = false /\
  lastApplied [r1; r2] = 5 * time.Minute /\
  Period (run net.parseIPv4 (NewHosts []) [r1; r2]) = 0 /\
  Stopped (run net.parseIPv4 (NewHosts []) [r3]) = false /\
  lastApplied [r3] = 30 * time.Second /\
  Period (run net.parseIPv4 (NewHosts []) [r3]) = 0.
Proof.
  repeat split.
Qed.

(** C9: after a successful [Reload] of the text "reload -1ns" on a table
    that is not stopped, [Period] returns -1 although the table is not
    stopped. *)
Theorem Period_minus_one_not_stopped (ParseIP : string -> net.IP) (h : staticHosts) :
  Stopped h = false ->
  let res := Reload ParseIP h (Some (NewReader "reload -1ns")) in
  snd res = None /\
  Stopped (fst res) = false /\
  Period (fst res) = -1.
Proof.
  intros Hst res. subst res.
  rewrite (Reload_scan ParseIP h _ Hst).
  repeat split.
Qed.

(** C9 (witness): a fresh table. *)
Lemma Period_minus_one_not_stopped_witness :
  Stopped (NewHosts []) = false /\
  Period (fst (Reload net.parseIPv4 (NewHosts []) (Some (NewReader "reload -1ns")))) = -1.
Proof.
  split; [reflexivity|].
  exact (proj2 (proj2 (Period_minus_one_not_stopped net.parseIPv4 (NewHosts []) eq_refl))).
Defined.

(** ** Examples *)

(** The example of the specification: one record, a period of thirty
    seconds, and nothing from the malformed line. *)
Example Reload_sampleText :
  Reload net.parseIPv4 (NewHosts []) (Some (NewReader sampleText))
  = ({| hosts := [NewHost ip_192_168_1_1 "host.local" ["alias1"; "alias2"]];
        period := 30 * time.Second;
        stopped := false |}, None).
Proof. reflexivity. Qed.

(** The lookups of the test suite. *)
Example Lookup_tests :
  Lookup (Some (NewHosts [])) "example.com" = None /\
  Lookup None "example.com" = None /\
  Lookup (Some (NewHosts [NewHost ip_192_168_1_1 "" []])) "" = None /\
  Lookup (Some (NewHosts [NewHost ip_192_168_1_1 "example.com" []])) "example.com"
  = ip_192_168_1_1 /\
  Lookup (Some (NewHosts [NewHost ip_192_168_1_1 "example.com" []])) "example" = None /\
  Lookup (Some (NewHosts [NewHost ip_192_168_1_1 "example.com" ["example"; "examples"]]))
         "examples" = ip_192_168_1_1.
Proof. repeat split. Qed.

(** A history: a reload with a period, a reload without, a stop. *)
Example Period_history :
  let r1 := CallReload (Some (NewReader "reload 5m")) in
  let r2 := CallReload (Some (NewReader "10.0.0.1 a")) in
  Period (run net.parseIPv4 (NewHosts []) [r1]) = 5 * time.Minute /\
  Period (run net.parseIPv4 (NewHosts []) [r1; r2]) = 0 /\
  Period (run net.parseIPv4 (NewHosts []) [r1; CallStop; r2]) = -1.
Proof. repeat split. Qed.

(** * Further properties *)

(** ** Lookup *)

(** X1: a present result of [Lookup] is the IP of a record of the table
    that matches the query, which is not empty; so a nil table, the empty
    query and a table without matching record give the absent value. *)
Theorem Lookup_sound (h : option staticHosts) (host : string) (ip : list Byte.byte) :
  Lookup h host = Some ip ->
  host <> EmptyString /\
  exists t r, h = Some t /\ In r (hosts t) /\ matches host r = true /\ IP r = Some ip.
Proof.
  unfold Lookup. destruct h as [t|]; [|discriminate].
  destruct (String.eqb host EmptyString) eqn:E; [discriminate|].
  apply String.eqb_neq in E. intros H. split; [exact E|].
  change (@None (list Byte.byte)) with (ipOf None) in H.
  rewrite lookupHosts_selected in H.
  destruct (selected (hosts t) host None) as [r|] eqn:Hsel; [|discriminate].
  destruct (selected_matches _ _ _ _ Hsel) as [Hn | [Hin Hm]]; [discriminate|].
  exists t, r. auto.
Qed.

(** X1 (witness): a lookup by alias. *)
Lemma Lookup_sound_witness :
  let t := NewHosts [NewHost ip_10_0_0_1 "a" ["x"]; NewHost ip_10_0_0_2 "b" ["y"]] in
  Lookup (Some t) "y" = ip_10_0_0_2 /\ "y" <> EmptyString.
Proof.
  split; [reflexivity|].
  exact (proj1 (Lookup_sound
                  (Some (NewHosts [NewHost ip_10_0_0_1 "a" ["x"]; NewHost ip_10_0_0_2 "b" ["y"]]))
                  "y" _ eq_refl)).
Defined.

(** X2: for a query that is not empty, [Lookup] returns the IP of the
    first record whose hostname is the query, whatever precedes it; without
    such a record it returns the IP of the last record with an alias equal
    to the query, and the absent value without that either. *)
Theorem Lookup_hostname_first_alias_last (t : staticHosts) (host : string) :
  host <> EmptyString ->
  Lookup (Some t) host
  = match byHostname host (hosts t) with
    | Some r => IP r
    | None =>
        match byLastAlias host (hosts t) with
        | Some ip => ip
        | None => None
        end
    end.
Proof.
  intros Hne. unfold Lookup.
  destruct (String.eqb host EmptyString) eqn:E;
    [apply String.eqb_eq in E; contradiction|].
  apply lookupHosts_first_hostname_last_alias.
Qed.

(** X2 (witness): two records with the alias "x" before the record with
    the hostname "x", and two records with the alias "y". *)
Lemma Lookup_hostname_first_alias_last_witness :
  let t := NewHosts [NewHost ip_10_0_0_1 "a" ["x"; "y"];
                     NewHost ip_10_0_0_2 "b" ["y"; "x"];
                     NewHost ip_192_168_1_1 "x" []] in
  "x" <> EmptyString /\
  Lookup (Some t) "x" = ip_192_168_1_1 /\
  Lookup (Some t) "y" = ip_10_0_0_2.
Proof.
  split; [discriminate|]. split.
  - exact (Lookup_hostname_first_alias_last
             (NewHosts [NewHost ip_10_0_0_1 "a" ["x"; "y"];
                        NewHost ip_10_0_0_2 "b" ["y"; "x"];
                        NewHost ip_192_168_1_1 "x" []])
             "x" ltac:(discriminate)).
  - reflexivity.
Defined.

(** X3: when a single record of the table matches the query, by its
    hostname or by an alias, that record is the first match and [Lookup]
    returns its IP. *)
Theorem Lookup_unique_match (t : staticHosts) (host : string)
        (pre post : list Host) (r : Host) :
  host <> EmptyString ->
  hosts t = pre ++ r :: post ->
  firstMatch pre host = None ->
  matches host r = true ->
  firstMatch post host = None ->
  firstMatch (hosts t) host = Some r /\ Lookup (Some t) host = IP r.
Proof.
  exact (Lookup_single_match t host pre post r).
Qed.

(** X3 (witness): one matching record between two others. *)
Lemma Lookup_unique_match_witness :
  let r := NewHost ip_10_0_0_2 "b" ["x"] in
  let t := NewHosts [NewHost ip_10_0_0_1 "a" []; r; NewHost ip_192_168_1_1 "c" ["z"]] in
  "x" <> EmptyString /\
  firstMatch [NewHost ip_10_0_0_1 "a" []] "x" = None /\
  matches "x" r = true /\
  firstMatch [NewHost ip_192_168_1_1 "c" ["z"]] "x" = None /\
  Lookup (Some t) "x" = ip_10_0_0_2.
Proof.
  split; [discriminate|]. repeat (split; [reflexivity|]).
  exact (proj2 (Lookup_unique_match
                  (NewHosts [NewHost ip_10_0_0_1 "a" []; NewHost ip_10_0_0_2 "b" ["x"];
                             NewHost ip_192_168_1_1 "c" ["z"]])
                  "x" [NewHost ip_10_0_0_1 "a" []] [NewHost ip_192_168_1_1 "c" ["z"]]
                  (NewHost ip_10_0_0_2 "b" ["x"])
                  ltac:(discriminate) eq_refl eq_refl eq_refl eq_refl)).
Defined.

(** ** The tokenizer *)

Lemma Split_nonempty (s : string) (sep : ascii) : strings.Split s sep <> [].
Proof.
  destruct s as [|c r]; simpl; [discriminate|].
  destruct (Ascii.eqb c sep); [discriminate|].
  destruct (strings.Split r sep); discriminate.
Qed.

(** Splitting at a separator splits the pieces on both sides. *)
Lemma Split_app_sep (u v : string) (sep : ascii) :
  strings.Split (u ++ String sep v)%string sep
  = strings.Split u sep ++ strings.Split v sep.
Proof.
  induction u as [|c u' IH]; simpl.
  - now rewrite Ascii.eqb_refl.
  - destruct (Ascii.eqb c sep); [now rewrite IH|].
    rewrite IH.
    pose proof (Split_nonempty u' sep) as Hne.
    destruct (strings.Split u' sep) as [|p ps]; [contradiction | reflexivity].
Qed.

(** The pieces have the bytes of the string, and not the separator. *)
Lemma Split_allBytes (Q : ascii -> bool) (s : string) (sep : ascii) :
  allBytes Q s = true ->
  Forall (fun p => allBytes (fun c => Q c && negb (Ascii.eqb c sep)) p = true)
         (strings.Split s sep).
Proof.
  induction s as [|c r IH]; simpl; intros H.
  - now constructor.
  - apply andb_true_iff in H. destruct H as [Hc Hr].
    specialize (IH Hr).
    destruct (Ascii.eqb c sep) eqn:Eb.
    + now constructor.
    + destruct (strings.Split r sep) as [|piece pieces].
      * constructor; [simpl; now rewrite Hc, Eb | constructor].
      * inversion IH; subst. constructor; [simpl|assumption].
        rewrite Hc, Eb. simpl. assumption.
Qed.

Lemma beforeHash_allBytes (s : string) :
  allBytes (fun c => negb (Ascii.eqb c hash)) (beforeHash s) = true.
Proof.
  induction s as [|c r IH]; simpl; [reflexivity|].
  destruct (Ascii.eqb c hash) eqn:E; simpl; [reflexivity|].
  now rewrite E, IH.
Qed.

Lemma Replace_allBytes (s : string) :
  allBytes (fun c => negb (Ascii.eqb c hash)) s = true ->
  allBytes (fun c => negb (Ascii.eqb c hash) && negb (Ascii.eqb c tab))
           (strings.Replace s tab blank) = true.
Proof.
  induction s as [|c r IH]; simpl; [reflexivity|].
  intros H. apply andb_true_iff in H. destruct H as [Hc Hr].
  rewrite (IH Hr), andb_true_r.
  destruct (Ascii.eqb c tab) eqn:Et; [reflexivity|].
  now rewrite Hc, Et.
Qed.

Lemma splitLine_cleanTokens (line : string) :
  forallb cleanToken (splitLine line) = true.
Proof.
  rewrite splitLine_tokenizeTrimmed. unfold tokenizeTrimmed.
  pose proof (beforeHash_allBytes line) as H.
  apply Replace_allBytes, (TrimSpace_allBytes _), (fun h => Split_allBytes _ _ blank h) in H.
  induction H as [|p ps Hp _ IH]; simpl; [reflexivity|].
  destruct (nonEmpty (strings.TrimSpace p)) eqn:Hn; [|exact IH].
  simpl. rewrite IH, andb_true_r. unfold cleanToken. rewrite Hn. simpl.
  apply (TrimSpace_allBytes _) in Hp.
  revert Hp. apply allBytes_weaken. intros c Hc.
  unfold isSeparator.
  apply andb_true_iff in Hc. destruct Hc as [Hc Hb].
  apply andb_true_iff in Hc. destruct Hc as [Hh Ht].
  apply negb_true_iff in Hb, Hh, Ht. now rewrite Hb, Hh, Ht.
Qed.

(** X4: every token that [splitLine] returns is not empty and holds no
    blank, no tab and no ['#']. *)
Theorem splitLine_tokens_clean (line : string) :
  forallb cleanToken (splitLine line) = true.
Proof.
  exact (splitLine_cleanTokens line).
Qed.

Lemma beforeHash_app_hash (a b : string) :
  beforeHash (a ++ String hash b)%string = beforeHash a.
Proof.
  induction a as [|c r IH]; simpl; [reflexivity|].
  destruct (Ascii.eqb c hash); [reflexivity | now rewrite IH].
Qed.

(** X5: text from a ['#'] to the end of the line is ignored: a comment
    appended to a line does not change its tokens. *)
Theorem splitLine_comment_ignored (a b : string) :
  splitLine (a ++ String hash b)%string = splitLine a.
Proof.
  rewrite !splitLine_tokenizeTrimmed. unfold tokenizeTrimmed.
  now rewrite beforeHash_app_hash.
Qed.

(** *** Fields separated by any number of blanks and tabs *)

Lemma TrimLeft_plain_head (c : ascii) (r : string) :
  plainByte c = true -> strings.TrimLeft (String c r) = String c r.
Proof.
  intros Hc. cbn [strings.TrimLeft].
  destruct (plainByte_starts_no_space c c c Hc) as [-> _].
  destruct r as [|c2 r2]; [reflexivity|].
  destruct (plainByte_starts_no_space c c2 c2 Hc) as (_ & -> & _).
  destruct r2 as [|c3 r3]; [reflexivity|].
  now destruct (plainByte_starts_no_space c c2 c3 Hc) as (_ & _ & ->).
Qed.

(** Leading blanks only give empty pieces. *)
Lemma Split_TrimLeft (s : string) :
  allBytes (fun c => plainByte c || Ascii.eqb c blank) s = true ->
  filter nonEmpty (strings.Split (strings.TrimLeft s) blank)
  = filter nonEmpty (strings.Split s blank).
Proof.
  induction s as [|c r IH]; [reflexivity|].
  cbn [allBytes]. intros H. apply andb_true_iff in H. destruct H as [Hc Hr].
  destruct (Ascii.eqb c blank) eqn:Eb.
  - apply Ascii.eqb_eq in Eb. subst c.
    change (strings.TrimLeft (String blank r)) with (strings.TrimLeft r).
    rewrite (IH Hr). reflexivity.
  - rewrite orb_false_r in Hc. now rewrite (TrimLeft_plain_head c r Hc).
Qed.

(** Such a string is trimmed to nothing only when it is made of blanks. *)
Lemma TrimLeft_empty_blanks (s : string) :
  allBytes (fun c => plainByte c || Ascii.eqb c blank) s = true ->
  strings.TrimLeft s = EmptyString ->
  allBytes (fun c => Ascii.eqb c blank) s = true.
Proof.
  induction s as [|c r IH]; [reflexivity|].
  cbn [allBytes]. intros H E. apply andb_true_iff in H. destruct H as [Hc Hr].
  destruct (Ascii.eqb c blank) eqn:Eb.
  - apply Ascii.eqb_eq in Eb. subst c. apply (IH Hr). exact E.
  - rewrite orb_false_r in Hc. rewrite (TrimLeft_plain_head c r Hc) in E.
    discriminate.
Qed.

(** What [TrimRight] drops from such a string is blanks. *)
Lemma TrimRight_blanks (s : string) :
  allBytes (fun c => plainByte c || Ascii.eqb c blank) s = true ->
  exists q, s = (strings.TrimRight s ++ q)%string /\
            allBytes (fun c => Ascii.eqb c blank) q = true.
Proof.
  induction s as [|c r IH]; [now exists EmptyString|].
  intros H. cbn [strings.TrimRight].
  destruct (String.eqb (strings.TrimLeft (String c r)) EmptyString) eqn:E.
  - exists (String c r). split; [reflexivity|].
    apply String.eqb_eq in E. now apply TrimLeft_empty_blanks.
  - cbn [allBytes] in H. apply andb_true_iff in H. destruct H as [Hc Hr].
    destruct (IH Hr) as [q [Hq Hb]]. exists q. split; [|exact Hb].
    simpl. now f_equal.
Qed.

Lemma append_empty_right (s : string) : (s ++ EmptyString)%string = s.
Proof.
  induction s as [|c r IH]; simpl; [reflexivity | now rewrite IH].
Qed.

(** Trailing blanks only give empty pieces. *)
Lemma Split_trailing_blanks (q : string) :
  allBytes (fun c => Ascii.eqb c blank) q = true ->
  forall u, filter nonEmpty (strings.Split (u ++ q)%string blank)
            = filter nonEmpty (strings.Split u blank).
Proof.
  induction q as [|c q' IH]; intros H u.
  - now rewrite append_empty_right.
  - cbn [allBytes] in H. apply andb_true_iff in H. destruct H as [Hc Hq].
    apply Ascii.eqb_eq in Hc. subst c.
    rewrite Split_app_sep, filter_app.
    specialize (IH Hq EmptyString). simpl in IH. rewrite IH. simpl.
    now rewrite app_nil_r.
Qed.

(** Trimming a string of plain bytes and blanks changes no non-empty piece. *)
Lemma Split_TrimSpace (s : string) :
  allBytes (fun c => plainByte c || Ascii.eqb c blank) s = true ->
  filter nonEmpty (strings.Split (strings.TrimSpace s) blank)
  = filter nonEmpty (strings.Split s blank).
Proof.
  intros H. rewrite <- (Split_TrimLeft s H). unfold strings.TrimSpace.
  assert (Hl : allBytes (fun c => plainByte c || Ascii.eqb c blank) (strings.TrimLeft s) = true).
  { destruct (TrimLeft_suffix (String.length s) s (Nat.le_refl _)) as [p Hp].
    rewrite Hp, allBytes_app in H. apply andb_true_iff in H. now destruct H. }
  destruct (TrimRight_blanks _ Hl) as [q [Hq Hb]].
  rewrite Hq at 2. now rewrite (Split_trailing_blanks q Hb).
Qed.

Lemma splitLine_fields_aux (line : string) :
  allBytes lineByte (beforeHash line) = true ->
  splitLine line
  = filter nonEmpty (strings.Split (strings.Replace (beforeHash line) tab blank) blank).
Proof.
  intros H. rewrite (splitLine_tokenize_plain line H). unfold tokenize.
  apply Split_TrimSpace, Replace_tab, H.
Qed.

Lemma forallb_filter_id {A : Type} (f : A -> bool) (l : list A) :
  forallb f l = true -> filter f l = l.
Proof.
  induction l as [|a r IH]; simpl; [reflexivity|].
  intros H. apply andb_true_iff in H. destruct H as [Ha Hr].
  now rewrite Ha, (IH Hr).
Qed.

(** X6: on a line whose only white space before a ['#'] is blanks and
    tabs, the tokens are the non-empty pieces between the blanks and tabs of
    the text before the ['#']: fields are separated by any number of blanks
    and tabs. *)
Theorem splitLine_fields (line : string) :
  allBytes lineByte (beforeHash line) = true ->
  splitLine line
  = filter nonEmpty (strings.Split (strings.Replace (beforeHash line) tab blank) blank).
Proof.
  exact (splitLine_fields_aux line).
Qed.

(** X6 (witness): blanks and tabs around and between three fields. *)
Lemma splitLine_fields_witness :
  let line := String tab ("  10.0.0.1 " ++ String tab (String tab "a   b  # c d"))%string in
  allBytes lineByte (beforeHash line) = true /\
  splitLine line = ["10.0.0.1"; "a"; "b"].
Proof.
  split; [reflexivity|].
  exact (splitLine_fields
           (String tab ("  10.0.0.1 " ++ String tab (String tab "a   b  # c d"))%string)
           eq_refl).
Defined.

Lemma plainByte_not_separator (c : ascii) :
  plainByte c = true -> Ascii.eqb c blank = false /\ Ascii.eqb c tab = false.
Proof.
  intros H. split.
  - destruct (Ascii.eqb c blank) eqn:E; [|reflexivity].
    apply Ascii.eqb_eq in E. subst c. discriminate.
  - destruct (Ascii.eqb c tab) eqn:E; [|reflexivity].
    apply Ascii.eqb_eq in E. subst c. discriminate.
Qed.

Lemma beforeHash_id (s : string) :
  allBytes (fun c => negb (Ascii.eqb c hash)) s = true -> beforeHash s = s.
Proof.
  induction s as [|c r IH]; simpl; [reflexivity|].
  intros H. apply andb_true_iff in H. destruct H as [Hc Hr].
  apply negb_true_iff in Hc. now rewrite Hc, (IH Hr).
Qed.

Lemma Replace_id (s : string) (old new : ascii) :
  allBytes (fun c => negb (Ascii.eqb c old)) s = true -> strings.Replace s old new = s.
Proof.
  induction s as [|c r IH]; simpl; [reflexivity|].
  intros H. apply andb_true_iff in H. destruct H as [Hc Hr].
  apply negb_true_iff in Hc. now rewrite Hc, (IH Hr).
Qed.

Lemma Split_no_sep (s : string) (sep : ascii) :
  allBytes (fun c => negb (Ascii.eqb c sep)) s = true -> strings.Split s sep = [s].
Proof.
  induction s as [|c r IH]; simpl; [reflexivity|].
  intros H. apply andb_true_iff in H. destruct H as [Hc Hr].
  apply negb_true_iff in Hc. now rewrite Hc, (IH Hr).
Qed.

(** Joining pieces without blank by blanks and splitting gives them back. *)
Lemma Split_concat (ts : list string) :
  ts <> [] ->
  Forall (fun t => allBytes (fun c => negb (Ascii.eqb c blank)) t = true) ts ->
  strings.Split (String.concat " " ts) blank = ts.
Proof.
  intros Hne H. induction H as [|t ts Ht Hts IH]; [contradiction|].
  destruct ts as [|t' ts'].
  - simpl. now apply Split_no_sep.
  - change (String.concat " " (t :: t' :: ts'))
      with (t ++ String blank (String.concat " " (t' :: ts')))%string.
    rewrite Split_app_sep, (Split_no_sep t blank Ht), IH; [reflexivity | discriminate].
Qed.

Lemma concat_allBytes (P : ascii -> bool) (ts : list string) :
  P blank = true ->
  Forall (fun t => allBytes P t = true) ts ->
  allBytes P (String.concat " " ts) = true.
Proof.
  intros Hb H. induction H as [|t ts Ht Hts IH]; [reflexivity|].
  destruct ts as [|t' ts']; [exact Ht|].
  change (String.concat " " (t :: t' :: ts'))
    with (t ++ String blank (String.concat " " (t' :: ts')))%string.
  rewrite allBytes_app, Ht. cbn [allBytes]. now rewrite Hb, IH.
Qed.

(** X7: tokens written on a line, separated by single blanks, are read
    back as they are: [splitLine] of the joined line returns the tokens,
    for non-empty tokens of plain bytes other than ['#']. *)
Theorem splitLine_concat (ts : list string) :
  forallb plainToken ts = true ->
  splitLine (String.concat " " ts) = ts.
Proof.
  intros H. rewrite forallb_forall in H.
  assert (Hall : forall (Q : ascii -> bool),
             (forall c, plainByte c && negb (Ascii.eqb c hash) = true -> Q c = true) ->
             Forall (fun t => allBytes Q t = true) ts).
  { intros Q HQ. apply Forall_forall. intros t Ht.
    specialize (H t Ht). unfold plainToken in H.
    apply andb_true_iff in H. destruct H as [_ H].
    revert H. now apply allBytes_weaken. }
  destruct ts as [|t0 ts0]; [reflexivity|].
  set (ts := t0 :: ts0) in *.
  assert (Hline : allBytes lineByte (beforeHash (String.concat " " ts)) = true).
  { rewrite beforeHash_id.
    - apply concat_allBytes; [reflexivity|]. apply Hall.
      intros c Hc. apply andb_true_iff in Hc. destruct Hc as [Hc _].
      unfold lineByte. now rewrite Hc.
    - apply concat_allBytes; [reflexivity|]. apply Hall.
      intros c Hc. apply andb_true_iff in Hc. now destruct Hc. }
  rewrite (splitLine_fields_aux _ Hline).
  rewrite beforeHash_id, Replace_id, Split_concat.
  - apply forallb_filter_id. apply forallb_forall. intros t Ht.
    specialize (H t Ht). unfold plainToken in H.
    apply andb_true_iff in H. now destruct H.
  - subst ts. discriminate.
  - apply Hall. intros c Hc. apply andb_true_iff in Hc. destruct Hc as [Hc _].
    destruct (plainByte_not_separator c Hc) as [-> _]. reflexivity.
  - apply concat_allBytes; [reflexivity|]. apply Hall.
    intros c Hc. apply andb_true_iff in Hc. destruct Hc as [Hc _].
    destruct (plainByte_not_separator c Hc) as [_ ->]. reflexivity.
  - apply concat_allBytes; [reflexivity|]. apply Hall.
    intros c Hc. apply andb_true_iff in Hc. now destruct Hc.
Qed.

(** X7 (witness): the three fields of a host line. *)
Lemma splitLine_concat_witness :
  forallb plainToken ["10.0.0.1"; "host.local"; "alias1"] = true /\
  splitLine "10.0.0.1 host.local alias1" = ["10.0.0.1"; "host.local"; "alias1"].
Proof.
  split; [reflexivity|].
  exact (splitLine_concat ["10.0.0.1"; "host.local"; "alias1"] eq_refl).
Defined.

(** A line of white space before its ['#'] has no token. *)
Lemma Replace_white (s : string) :
  allBytes strings.asciiSpace s = true ->
  allBytes strings.asciiSpace (strings.Replace s tab blank) = true.
Proof.
  induction s as [|c r IH]; simpl; [reflexivity|].
  intros H. apply andb_true_iff in H. destruct H as [Hc Hr].
  rewrite (IH Hr), andb_true_r.
  destruct (Ascii.eqb c tab); [reflexivity | exact Hc].
Qed.

Lemma TrimLeft_white (s : string) :
  allBytes strings.asciiSpace s = true -> strings.TrimLeft s = EmptyString.
Proof.
  induction s as [|c r IH]; [reflexivity|].
  cbn [allBytes strings.TrimLeft]. intros H.
  apply andb_true_iff in H. destruct H as [Hc Hr]. rewrite Hc. now apply IH.
Qed.

Lemma splitLine_white (line : string) :
  allBytes strings.asciiSpace (beforeHash line) = true -> splitLine line = [].
Proof.
  intros H. rewrite splitLine_tokenizeTrimmed. unfold tokenizeTrimmed.
  unfold strings.TrimSpace at 2.
  now rewrite (TrimLeft_white _ (Replace_white _ H)).
Qed.

(** ** Reload *)

(** Dropping a line that leaves the pending state as it is. *)
Lemma reloadLines_drop (ParseIP : string -> net.IP) (pre post : list string) (line : string) :
  (forall st, reloadLine ParseIP st line = st) ->
  reloadLines ParseIP (pre ++ line :: post) = reloadLines ParseIP (pre ++ post).
Proof.
  intros Hskip. unfold reloadLines. rewrite !fold_left_app. simpl.
  now rewrite Hskip.
Qed.

(** X8: blank lines and lines with only a comment contribute nothing:
    [Reload] of a text with such a line gives the table of the text
    without it, and no error. *)
Theorem Reload_skips_blank_and_comment_lines
        (ParseIP : string -> net.IP) (h : staticHosts) (r : io.Reader)
        (pre post : list string) (line : string) :
  Stopped h = false ->
  bufio.tokens (bufio.NewScanner r) = pre ++ line :: post ->
  bufio.Err (bufio.NewScanner r) = None ->
  allBytes strings.asciiSpace (beforeHash line) = true ->
  Reload ParseIP h (Some r)
  = ({| hosts := snd (reloadLines ParseIP (pre ++ post));
        period := fst (reloadLines ParseIP (pre ++ post));
        stopped := false |}, None).
Proof.
  intros Hst Htok Herr Hw.
  rewrite (Reload_scan ParseIP h r Hst), Herr, Htok.
  rewrite (reloadLines_drop ParseIP pre post line); [reflexivity|].
  intros [p hs]. unfold reloadLine. now rewrite (splitLine_white line Hw).
Qed.

(** X8 (witness): a comment line with leading blanks between two host lines. *)
Lemma Reload_skips_blank_and_comment_lines_witness :
  let r := NewReader ("10.0.0.1 a" ++ nl ++ "  # 10.0.0.9 z" ++ nl ++ "10.0.0.2 b")%string in
  Stopped (NewHosts []) = false /\
  bufio.tokens (bufio.NewScanner r) = ["10.0.0.1 a"] ++ "  # 10.0.0.9 z" :: ["10.0.0.2 b"] /\
  bufio.Err (bufio.NewScanner r) = None /\
  allBytes strings.asciiSpace (beforeHash "  # 10.0.0.9 z") = true /\
  Reload net.parseIPv4 (NewHosts []) (Some r)
  = ({| hosts := [NewHost ip_10_0_0_1 "a" []; NewHost ip_10_0_0_2 "b" []];
        period := 0; stopped := false |}, None).
Proof.
  repeat (split; [reflexivity|]).
  exact (Reload_skips_blank_and_comment_lines
           net.parseIPv4 (NewHosts [])
           (NewReader ("10.0.0.1 a" ++ nl ++ "  # 10.0.0.9 z" ++ nl ++ "10.0.0.2 b")%string)
           ["10.0.0.1 a"] ["10.0.0.2 b"] "  # 10.0.0.9 z"
           eq_refl eq_refl eq_refl eq_refl).
Defined.

(** X9: a [Reload] that goes through replaces the table as a whole: what
    an earlier [Reload] loaded is not merged, the result is that of the
    last one alone. *)
Theorem Reload_last_wins
        (ParseIP : string -> net.IP) (h : staticHosts)
        (r1 : option io.Reader) (r2 : io.Reader) :
  bufio.Err (bufio.NewScanner r2) = None ->
  Reload ParseIP (fst (Reload ParseIP h r1)) (Some r2) = Reload ParseIP h (Some r2).
Proof.
  intros Herr.
  destruct (Stopped h) eqn:Hst.
  - assert (H1 : Reload ParseIP h r1 = (h, None)).
    { unfold Reload. rewrite Hst. now destruct r1. }
    now rewrite H1.
  - assert (Hst' : Stopped (fst (Reload ParseIP h r1)) = false)
      by now rewrite Reload_stopped.
    now rewrite (Reload_scan ParseIP _ r2 Hst'), (Reload_scan ParseIP h r2 Hst), Herr.
Qed.

(** X9 (witness): two texts on a table with a record. *)
Lemma Reload_last_wins_witness :
  let h := NewHosts [NewHost ip_192_168_1_1 "example.com" []] in
  let r1 := Some (NewReader sampleText) in
  let r2 := NewReader "10.0.0.2 b" in
  bufio.Err (bufio.NewScanner r2) = None /\
  Reload net.parseIPv4 (fst (Reload net.parseIPv4 h r1)) (Some r2)
  = ({| hosts := [NewHost ip_10_0_0_2 "b" []]; period := 0; stopped := false |}, None).
Proof.
  split; [reflexivity|].
  exact (Reload_last_wins net.parseIPv4
           (NewHosts [NewHost ip_192_168_1_1 "example.com" []])
           (Some (NewReader sampleText)) (NewReader "10.0.0.2 b") eq_refl).
Defined.



(** The record of a line is well formed. *)
Lemma reloadLine_wellFormed (ParseIP : string -> net.IP)
      (st : time.Duration * list Host) (line : string) :
  forallb wellFormed (snd st) = true ->
  forallb wellFormed (snd (reloadLine ParseIP st line)) = true.
Proof.
  intros Hwf. unfold reloadLine. destruct st as [p hs]. simpl in Hwf.
  pose proof (splitLine_cleanTokens line) as Hc.
  destruct (splitLine line) as [|s0 [|s1 rest]]; try exact Hwf.
  destruct (String.eqb s0 "reload"); [exact Hwf|].
  destruct (ParseIP s0) as [ip|]; [|exact Hwf].
  simpl. rewrite forallb_app, Hwf. simpl.
  simpl in Hc. apply andb_true_iff in Hc. destruct Hc as [_ Hc].
  apply andb_true_iff in Hc. destruct Hc as [H1 Hrest].
  unfold wellFormed. simpl. now rewrite H1, Hrest.
Qed.

Lemma reloadLines_wellFormed (ParseIP : string -> net.IP) (lines : list string) :
  forallb wellFormed (snd (reloadLines ParseIP lines)) = true.
Proof.
  unfold reloadLines.
  assert (H : forall st, forallb wellFormed (snd st) = true ->
                         forallb wellFormed (snd (fold_left (reloadLine ParseIP) lines st)) = true).
  { induction lines as [|l rest IH]; intros st Hst; simpl; [exact Hst|].
    apply IH. now apply reloadLine_wellFormed. }
  now apply H.
Qed.

(** X11: every record that a [Reload] loads is well formed: it has an IP,
    and its hostname and aliases are non-empty and hold no blank, no tab
    and no ['#']. *)
Theorem Reload_records_wellFormed
        (ParseIP : string -> net.IP) (h : staticHosts) (r : io.Reader) :
  Stopped h = false ->
  bufio.Err (bufio.NewScanner r) = None ->
  forallb wellFormed (hosts (fst (Reload ParseIP h (Some r)))) = true.
Proof.
  intros Hst Herr. rewrite (Reload_scan ParseIP h r Hst), Herr. simpl.
  apply reloadLines_wellFormed.
Qed.

(** X11 (witness): the sample text on a table with a record without IP. *)
Lemma Reload_records_wellFormed_witness :
  let h := NewHosts [NewHost None "" []] in
  Stopped h = false /\
  bufio.Err (bufio.NewScanner (NewReader sampleText)) = None /\
  forallb wellFormed (hosts h) = false /\
  forallb wellFormed (hosts (fst (Reload net.parseIPv4 h (Some (NewReader sampleText))))) = true.
Proof.
  repeat (split; [reflexivity|]).
  exact (Reload_records_wellFormed net.parseIPv4 (NewHosts [NewHost None "" []])
           (NewReader sampleText) eq_refl eq_refl).
Defined.

(** With a matching record something is selected, a record of the table. *)
Lemma selected_from_some (hs : list Host) (host : string) (x : Host) :
  exists r, selected hs host (Some x) = Some r /\ (x = r \/ In r hs).
Proof.
  revert x.
  induction hs as [|h rest IH]; intros x; cbn [selected].
  - exists x. auto.
  - destruct (String.eqb (Hostname h) host).
    + exists h. split; [reflexivity|]. right. now left.
    + destruct (existsb (fun alias => String.eqb alias host) (Aliases h)).
      * destruct (IH h) as [r [Hs Hin]]. exists r. split; [exact Hs|].
        right. destruct Hin as [-> | Hin]; [now left | now right].
      * destruct (IH x) as [r [Hs Hin]]. exists r. split; [exact Hs|].
        destruct Hin as [-> | Hin]; [now left | right; now right].
Qed.

Lemma selected_some (hs : list Host) (host : string) (m : Host) :
  firstMatch hs host = Some m ->
  exists r, selected hs host None = Some r /\ In r hs.
Proof.
  unfold firstMatch.
  induction hs as [|h rest IH]; cbn [find selected]; [discriminate|].
  unfold matches at 1.
  destruct (String.eqb (Hostname h) host); cbn [orb].
  - intros _. exists h. split; [reflexivity | now left].
  - destruct (existsb (fun alias => String.eqb alias host) (Aliases h)).
    + intros _. destruct (selected_from_some rest host h) as [r [Hs Hin]].
      exists r. split; [exact Hs|].
      destruct Hin as [-> | Hin]; [now left | now right].
    + intros Hf. destruct (IH Hf) as [r [Hs Hin]].
      exists r. split; [exact Hs | now right].
Qed.

(** On a table whose records have an IP, the absent value means that no
    record matches. *)
Lemma Lookup_absent_no_match (t : staticHosts) (host : string) :
  forallb wellFormed (hosts t) = true ->
  host <> EmptyString ->
  (Lookup (Some t) host = None <-> firstMatch (hosts t) host = None).
Proof.
  intros Hwf Hne. unfold Lookup.
  destruct (String.eqb host EmptyString) eqn:E;
    [apply String.eqb_eq in E; contradiction|].
  change (@None (list Byte.byte)) with (ipOf None) at 1.
  rewrite lookupHosts_selected. split.
  - intros Hl. destruct (firstMatch (hosts t) host) as [r'|] eqn:Hfm; [|reflexivity].
    destruct (selected_some (hosts t) host r' Hfm) as [r [Hs Hin]].
    rewrite Hs in Hl. cbn [ipOf] in Hl.
    rewrite forallb_forall in Hwf. specialize (Hwf r Hin).
    unfold wellFormed in Hwf. rewrite Hl in Hwf. discriminate.
  - intros Hfm. now rewrite (selected_no_match _ _ _ Hfm).
Qed.

(** X12: after a [Reload] that went through, [Lookup] of a non-empty
    query returns the absent value exactly when no record matches the
    query: a match always yields an address. *)
Theorem Lookup_after_Reload_absent_iff
        (ParseIP : string -> net.IP) (h : staticHosts) (r : io.Reader) (host : string) :
  Stopped h = false ->
  bufio.Err (bufio.NewScanner r) = None ->
  host <> EmptyString ->
  let h' := fst (Reload ParseIP h (Some r)) in
  Lookup (Some h') host = None <-> firstMatch (hosts h') host = None.
Proof.
  intros Hst Herr Hne h'. apply Lookup_absent_no_match; [|exact Hne].
  subst h'. rewrite (Reload_scan ParseIP h r Hst), Herr. simpl.
  apply reloadLines_wellFormed.
Qed.

(** X12 (witness): the sample text and a name it does not hold. *)
Lemma Lookup_after_Reload_absent_iff_witness :
  let h' := fst (Reload net.parseIPv4 (NewHosts []) (Some (NewReader sampleText))) in
  Stopped (NewHosts []) = false /\
  bufio.Err (bufio.NewScanner (NewReader sampleText)) = None /\
  "bad" <> EmptyString /\
  firstMatch (hosts h') "bad" = None /\
  Lookup (Some h') "bad" = None.
Proof.
  split; [reflexivity|]. split; [reflexivity|]. split; [discriminate|].
  split; [reflexivity|].
  exact (proj2 (Lookup_after_Reload_absent_iff net.parseIPv4 (NewHosts [])
                  (NewReader sampleText) "bad" eq_refl eq_refl ltac:(discriminate))
           eq_refl).
Defined.

Lemma find_first (A : Type) (f : A -> bool) (l1 l2 : list A) (x : A) :
  (forall y, In y l1 -> f y = false) ->
  f x = true ->
  find f (l1 ++ x :: l2) = Some x.
Proof.
  intros H1 Hx. induction l1 as [|y l1 IH]; simpl; [now rewrite Hx|].
  rewrite (H1 y (or_introl eq_refl)). apply IH.
  intros z Hz. apply H1. now right.
Qed.

(** X13: what a line of the text binds can be looked up: after a [Reload]
    that went through, [Lookup] of the hostname of a host line returns the
    address of that line, when no earlier line of the text has given a
    record with that hostname. *)
Theorem Reload_then_Lookup_hostname
        (ParseIP : string -> net.IP) (h : staticHosts) (r : io.Reader)
        (pre post : list string) (line s0 s1 : string) (rest : list string)
        (a : list Byte.byte) :
  Stopped h = false ->
  bufio.tokens (bufio.NewScanner r) = pre ++ line :: post ->
  bufio.Err (bufio.NewScanner r) = None ->
  splitLine line = s0 :: s1 :: rest ->
  s0 <> "reload" ->
  ParseIP s0 = Some a ->
  (forall x, In x (snd (reloadLines ParseIP pre)) -> Hostname x <> s1) ->
  Lookup (Some (fst (Reload ParseIP h (Some r)))) s1 = Some a.
Proof.
  intros Hst Htok Herr Hs Hk Hip Hpre.
  rewrite (Reload_scan ParseIP h r Hst), Herr, Htok.
  assert (Hne : String.eqb s1 EmptyString = false).
  { pose proof (splitLine_cleanTokens line) as Hc. rewrite Hs in Hc.
    simpl in Hc. apply andb_true_iff in Hc. destruct Hc as [_ Hc].
    apply andb_true_iff in Hc. destruct Hc as [Hc _].
    unfold cleanToken in Hc. apply andb_true_iff in Hc. destruct Hc as [Hc _].
    unfold nonEmpty in Hc. now apply negb_true_iff in Hc. }
  unfold Lookup. rewrite Hne. cbn [fst hosts].
  rewrite lookupHosts_first_hostname_last_alias.
  change (line :: post) with ([line] ++ post).
  rewrite reloadLines_app, (reloadLines_app ParseIP [line] post). cbn [snd].
  assert (Hline : snd (reloadLines ParseIP [line])
                  = [{| IP := Some a; Hostname := s1; Aliases := rest |}]).
  { unfold reloadLines, reloadLine. simpl. rewrite Hs.
    apply String.eqb_neq in Hk. now rewrite Hk, Hip. }
  rewrite Hline. simpl app.
  rewrite (find_first _ _ _ _ {| IP := Some a; Hostname := s1; Aliases := rest |}).
  - reflexivity.
  - intros y Hy. apply String.eqb_neq. now apply Hpre.
  - simpl. apply String.eqb_refl.
Qed.

(** X13 (witness): the second line binds "b"; the first line has the alias
    "b" and does not prevail. *)
Lemma Reload_then_Lookup_hostname_witness :
  let r := NewReader ("10.0.0.1 a b" ++ nl ++ "10.0.0.2 b" ++ nl ++ "192.168.1.1 b")%string in
  Stopped (NewHosts []) = false /\
  bufio.tokens (bufio.NewScanner r) = ["10.0.0.1 a b"] ++ "10.0.0.2 b" :: ["192.168.1.1 b"] /\
  bufio.Err (bufio.NewScanner r) = None /\
  splitLine "10.0.0.2 b" = ["10.0.0.2"; "b"] /\
  net.parseIPv4 "10.0.0.2" = ip_10_0_0_2 /\
  Lookup (Some (fst (Reload net.parseIPv4 (NewHosts []) (Some r)))) "b" = ip_10_0_0_2.
Proof.
  repeat (split; [reflexivity|]).
  refine (Reload_then_Lookup_hostname
            net.parseIPv4 (NewHosts [])
            (NewReader ("10.0.0.1 a b" ++ nl ++ "10.0.0.2 b" ++ nl ++ "192.168.1.1 b")%string)
            ["10.0.0.1 a b"] ["192.168.1.1 b"] "10.0.0.2 b" "10.0.0.2" "b" [] _
            eq_refl eq_refl eq_refl eq_refl ltac:(discriminate) eq_refl _).
  intros x [<- | []]. discriminate.
Defined.

(** X14: the texts of a configuration compose: the host sequence of two
    texts one after the other is the sequence of the first followed by
    that of the second, in input order, and the period is that of the last
    directive of the second, or else the period of the first. *)
Theorem reloadLines_concatenation (ParseIP : string -> net.IP) (l1 l2 : list string) :
  snd (reloadLines ParseIP (l1 ++ l2))
  = snd (reloadLines ParseIP l1) ++ snd (reloadLines ParseIP l2) /\
  fst (reloadLines ParseIP (l1 ++ l2))
  = match lastSome directive l2 with
    | Some d => d
    | None => fst (reloadLines ParseIP l1)
    end.
Proof.
  now rewrite reloadLines_app.
Qed.





(** A text whose second line has 65536 bytes: the scan stops there, the
    table keeps its record, and the same line one byte shorter is loaded. *)
Example Reload_long_line :
  let h := NewHosts [NewHost ip_10_0_0_2 "b" []] in
  Reload net.parseIPv4 h (Some (NewReader ("10.0.0.1 a" ++ nl ++ longLine ++ nl)%string))
  = (h, Some ErrTooLong) /\
  snd (Reload net.parseIPv4 h
         (Some (NewReader ("10.0.0.1 a" ++ nl ++ String.substring 1 (Nat.pow 2 16 - 1) longLine ++ nl)%string)))
  = None.
Proof.
  split; vm_compute; reflexivity.
Qed.

(** The period and hosts a call leaves in a table that is not stopped. *)
Lemma exec_loaded (ParseIP : string -> net.IP) (h : staticHosts) (c : call) :
  Stopped h = false ->
  isStop c = false ->
  Stopped (exec ParseIP h c) = false /\
  (period (exec ParseIP h c), hosts (exec ParseIP h c))
  = match loaded ParseIP c with
    | Some st => st
    | None => (period h, hosts h)
    end.
Proof.
  intros Hst Hc. destruct c as [host|[r|]| | |]; cbn [exec loaded isStop] in *;
    try discriminate; auto.
  rewrite (Reload_scan ParseIP h r Hst).
  destruct (bufio.Err (bufio.NewScanner r)); cbn [fst]; [auto|].
  split; [reflexivity|]. cbn [period hosts].
  now destruct (reloadLines ParseIP (bufio.tokens (bufio.NewScanner r))).
Qed.

Lemma run_loaded (ParseIP : string -> net.IP) (calls : list call) :
  forall h,
    Stopped h = false ->
    existsb isStop calls = false ->
    (period (run ParseIP h calls), hosts (run ParseIP h calls))
    = match lastSome (loaded ParseIP) calls with
      | Some st => st
      | None => (period h, hosts h)
      end.
Proof.
  unfold run.
  induction calls as [|c rest IH]; intros h Hst Hno; cbn [fold_left lastSome existsb] in *;
    [reflexivity|].
  apply orb_false_iff in Hno. destruct Hno as [Hc Hrest].
  destruct (exec_loaded ParseIP h c Hst Hc) as [Hst' Hp].
  rewrite (IH _ Hst' Hrest).
  destruct (lastSome (loaded ParseIP) rest); [reflexivity | exact Hp].
Qed.

(** X16: in a history without [Stop], the period and the host sequence of
    the table are always those of one and the same [Reload], the most
    recent one that went through, and those of [NewHosts] before any. *)
Theorem table_after_history
        (ParseIP : string -> net.IP) (hs : list Host) (calls : list call) :
  existsb isStop calls = false ->
  let h := run ParseIP (NewHosts hs) calls in
  (period h, hosts h)
  = match lastSome (loaded ParseIP) calls with
    | Some st => st
    | None => (0, hs)
    end.
Proof.
  intros Hno h. subst h.
  exact (run_loaded ParseIP calls (NewHosts hs) eq_refl Hno).
Qed.

(** X16 (witness): two reloads that go through, a lookup, a reload whose
    reader fails and a reload without source. *)
Lemma table_after_history_witness :
  let calls := [CallReload (Some (NewReader sampleText));
                CallReload (Some (NewReader "10.0.0.2 b"));
                CallLookup "b";
                CallReload (Some (io.mkReader "10.0.0.1 a" (Some (ErrRead "reset"))));
                CallReload None] in
  let h := run net.parseIPv4 (NewHosts [NewHost ip_192_168_1_1 "example.com" []]) calls in
  existsb isStop calls = false /\
  (period h, hosts h) = (0, [NewHost ip_10_0_0_2 "b" []]).
Proof.
  split; [reflexivity|].
  exact (table_after_history net.parseIPv4
           [NewHost ip_192_168_1_1 "example.com" []]
           [CallReload (Some (NewReader sampleText));
            CallReload (Some (NewReader "10.0.0.2 b"));
            CallLookup "b";
            CallReload (Some (io.mkReader "10.0.0.1 a" (Some (ErrRead "reset"))));
            CallReload None]
           eq_refl).
Defined.

(** X17: [Stop] ends the history of the table: whatever calls follow it,
    the table is the one [Stop] left, stopped, with the hosts and the
    period it had; and [Stop] is idempotent. *)
Theorem Stop_ends_history
        (ParseIP : string -> net.IP) (h : staticHosts) (before after : list call) :
  let h' := run ParseIP h (before ++ CallStop :: after) in
  h' = Stop (run ParseIP h before) /\
  Stopped h' = true /\
  hosts h' = hosts (run ParseIP h before) /\
  period h' = period (run ParseIP h before) /\
  Stop h' = h'.
Proof.
  intros h'.
  assert (E : h' = Stop (run ParseIP h before)).
  { subst h'. unfold run. rewrite fold_left_app. cbn [fold_left exec].
    exact (run_stopped ParseIP after _ (Stop_stopped _)). }
  rewrite E. clear E h'.
  pose proof (Stop_stopped (run ParseIP h before)) as Hs.
  split; [reflexivity|]. split; [exact Hs|]. clear Hs.
  unfold Stop.
  destruct (stopped (run ParseIP h before)) eqn:Eb; cbn [hosts period stopped];
    rewrite ?Eb; repeat split.
Qed.

(** X18: a table is stopped exactly when it was stopped before or [Stop]
    is among the calls: no other call sets or clears the flag. *)
Theorem Stopped_after_history
        (ParseIP : string -> net.IP) (h : staticHosts) (calls : list call) :
  Stopped (run ParseIP h calls) = Stopped h || existsb isStop calls.
Proof.
  destruct (Stopped h) eqn:Hst.
  - now rewrite (run_stopped ParseIP calls h Hst).
  - cbn [orb]. destruct (existsb isStop calls) eqn:Hex.
    + now apply run_with_Stop.
    + now destruct (run_period ParseIP calls h Hst Hex).
Qed.

(** X19: a name that a single line of the text binds, as hostname or as
    alias, is looked up to the address of that line: after a [Reload] that
    went through, [Lookup] of the name returns the address, when no record
    of the other lines matches the name. *)
Theorem Reload_then_Lookup_unique
        (ParseIP : string -> net.IP) (h : staticHosts) (r : io.Reader)
        (pre post : list string) (line s0 s1 name : string) (rest : list string)
        (a : list Byte.byte) :
  Stopped h = false ->
  bufio.tokens (bufio.NewScanner r) = pre ++ line :: post ->
  bufio.Err (bufio.NewScanner r) = None ->
  splitLine line = s0 :: s1 :: rest ->
  s0 <> "reload" ->
  ParseIP s0 = Some a ->
  In name (s1 :: rest) ->
  firstMatch (snd (reloadLines ParseIP pre)) name = None ->
  firstMatch (snd (reloadLines ParseIP post)) name = None ->
  Lookup (Some (fst (Reload ParseIP h (Some r)))) name = Some a.
Proof.
  intros Hst Htok Herr Hs Hk Hip Hin Hpre Hpost.
  rewrite (Reload_scan ParseIP h r Hst), Herr, Htok. cbn [fst].
  assert (Hclean : forallb cleanToken (s1 :: rest) = true).
  { pose proof (splitLine_cleanTokens line) as Hc. rewrite Hs in Hc.
    cbn [forallb] in Hc. apply andb_true_iff in Hc. now destruct Hc. }
  assert (Hne : name <> EmptyString).
  { rewrite forallb_forall in Hclean. specialize (Hclean name Hin).
    unfold cleanToken in Hclean. apply andb_true_iff in Hclean.
    destruct Hclean as [Hn _]. unfold nonEmpty in Hn.
    apply negb_true_iff in Hn. now apply String.eqb_neq. }
  assert (Hline : snd (reloadLines ParseIP [line])
                  = [{| IP := Some a; Hostname := s1; Aliases := rest |}]).
  { unfold reloadLines, reloadLine. cbn [fold_left]. rewrite Hs.
    apply String.eqb_neq in Hk. now rewrite Hk, Hip. }
  refine (proj2 (Lookup_single_match _ name
                   (snd (reloadLines ParseIP pre)) (snd (reloadLines ParseIP post))
                   {| IP := Some a; Hostname := s1; Aliases := rest |}
                   Hne _ Hpre _ Hpost)).
  - cbn [hosts]. change (line :: post) with ([line] ++ post).
    now rewrite reloadLines_app, (reloadLines_app ParseIP [line] post), Hline.
  - unfold matches. cbn [Hostname Aliases].
    destruct Hin as [<- | Hin]; [now rewrite String.eqb_refl|].
    apply orb_true_iff. right. apply existsb_exists.
    exists name. split; [exact Hin | apply String.eqb_refl].
Qed.

(** X19 (witness): the alias "alias2" of the sample text. *)
Lemma Reload_then_Lookup_unique_witness :
  let r := NewReader sampleText in
  let pre := ["# comment"] in
  let line := "192.168.1.1   host.local   alias1  alias2" in
  let post := ["reload 30s"; "not-an-ip    bad"] in
  Stopped (NewHosts []) = false /\
  bufio.tokens (bufio.NewScanner r) = pre ++ line :: post /\
  bufio.Err (bufio.NewScanner r) = None /\
  splitLine line = ["192.168.1.1"; "host.local"; "alias1"; "alias2"] /\
  net.parseIPv4 "192.168.1.1" = ip_192_168_1_1 /\
  Lookup (Some (fst (Reload net.parseIPv4 (NewHosts []) (Some r)))) "alias2" = ip_192_168_1_1.
Proof.
  repeat (split; [reflexivity|]).
  refine (Reload_then_Lookup_unique
            net.parseIPv4 (NewHosts []) (NewReader sampleText)
            ["# comment"] ["reload 30s"; "not-an-ip    bad"]
            "192.168.1.1   host.local   alias1  alias2"
            "192.168.1.1" "host.local" "alias2" ["alias1"; "alias2"] _
            eq_refl eq_refl eq_refl eq_refl _ eq_refl _ eq_refl eq_refl).
  - discriminate.
  - right. right. left. reflexivity.
Defined.

(** X20: [Stop] freezes the answers of the table: after [Stop], whatever
    calls follow, [Lookup] returns what it returned when [Stop] was called. *)
Theorem Lookup_after_Stop
        (ParseIP : string -> net.IP) (h : staticHosts) (before after : list call)
        (host : string) :
  Lookup (Some (run ParseIP h (before ++ CallStop :: after))) host
  = Lookup (Some (run ParseIP h before)) host.
Proof.
  assert (E : run ParseIP h (before ++ CallStop :: after) = Stop (run ParseIP h before)).
  { unfold run. rewrite fold_left_app. cbn [fold_left exec].
    exact (run_stopped ParseIP after _ (Stop_stopped _)). }
  rewrite E. unfold Lookup, Stop.
  now destruct (stopped (run ParseIP h before)).
Qed.
